(** * Definitions caching and evaluation caching of the Unleash Next.js SDK

    A shallow embedding of [src/lib/src/getDefinitions.ts] (the conditional
    fetch of feature definitions, with its ETag bookkeeping) and of
    [src/lib/src/flag.ts] (the per-flag operation with its single-slot
    evaluation cache), followed by the properties of both.

    Conventions of the embedding:
    - a JS string is a Rocq [string] holding its UTF-8 bytes;
    - an optional property ([etag?: string]) is an [option]; where the code
      tells a property that is absent from one that is [undefined] (the
      spread of [fetchOptions] in [flag]) it is an [Optional]; a value is
      "truthy" as in JS, so the empty string counts as absent wherever the
      source tests a string with [if (x)], [!x], [x || y] or [x && y];
    - a JS object that the code only passes around and compares with [===]
      is its reference;
    - a [throw] (or a rejected promise, the functions being [async]) is the
      [Throw] case of [Completion]; state is passed explicitly. *)

From Stdlib Require Import ZArith Ascii String List Bool.
From stdpp Require Import gmap strings list fin_maps pretty.

Open Scope string_scope.
Open Scope Z_scope.
Set Warnings "-register-all".

(** ** JavaScript values the code relies on *)

(** Truthiness of a string: only the empty string is falsy. *)
Definition truthy (s : string) : bool :=
  match s with
  | EmptyString => false
  | String _ _ => true
  end.

(** Truthiness of an optional string property: [undefined] and the empty
    string are falsy. *)
Definition otruthy (o : option string) : bool :=
  match o with
  | Some s => truthy s
  | None => false
  end.

(** [x || s] for an optional string [x], with [s] the empty string. *)
Definition or_empty (o : option string) : string :=
  match o with
  | Some s => if truthy s then s else EmptyString
  | None => EmptyString
  end.

(** [String.prototype.toLowerCase], on the ASCII letters (header names are
    ASCII tokens; other bytes are left as they are). *)
Definition lower_ascii (c : ascii) : ascii :=
  let n := N_of_ascii c in
  if ((65 <=? n) && (n <=? 90))%N then ascii_of_N (n + 32) else c.

Fixpoint toLowerCase (s : string) : string :=
  match s with
  | EmptyString => EmptyString
  | String c r => String (lower_ascii c) (toLowerCase r)
  end.

(** What a statement evaluates to: a value, or a thrown error. *)
Inductive exn : Type :=
  | Error (message : string)
  | TypeError (message : string)
  | SyntaxError (message : string).

Inductive Completion (A : Type) : Type :=
  | Return (a : A)
  | Throw (e : exn).
Arguments Return {A} a.
Arguments Throw {A} e.

(** ** [JSON.stringify] *)

Module JSON.

(** The values the code serializes: strings, integral numbers, booleans
    and plain objects, a property being [None] when its value is
    [undefined]. Properties are listed in the object's own order, which is
    the order of insertion for names that are not array indices. *)
Inductive value : Type :=
  | Str (s : string)
  | Num (n : Z)
  | Bool (b : bool)
  | Obj (props : list (string * option value)).

Definition dquote : ascii := "034"%char.
Definition backslash : ascii := "092"%char.

Definition hex_digit (n : N) : ascii :=
  if (n <? 10)%N then ascii_of_N (48 + n) else ascii_of_N (87 + n).

(** QuoteJSONString, one character. *)
Definition escape (c : ascii) : string :=
  let n := N_of_ascii c in
  if (n =? 8)%N then String backslash "b"
  else if (n =? 9)%N then String backslash "t"
  else if (n =? 10)%N then String backslash "n"
  else if (n =? 12)%N then String backslash "f"
  else if (n =? 13)%N then String backslash "r"
  else if (n =? 34)%N then String backslash (String dquote EmptyString)
  else if (n =? 92)%N then String backslash (String backslash EmptyString)
  else if (n <? 32)%N then
    String backslash
      (String "u" (String "0" (String "0"
        (String (hex_digit (n / 16)) (String (hex_digit (n mod 16)) EmptyString)))))
  else String c EmptyString.

Fixpoint escape_string (s : string) : string :=
  match s with
  | EmptyString => EmptyString
  | String c r => escape c ++ escape_string r
  end.

Definition quote (s : string) : string :=
  String dquote (escape_string s ++ String dquote EmptyString).

(** SerializeJSONObject: the properties whose value is not [undefined],
    separated by commas, without white space. *)
Fixpoint stringify (v : value) : string :=
  match v with
  | Str s => quote s
  | Num n => pretty n
  | Bool b => if b then "true" else "false"
  | Obj props =>
      let fix members (ps : list (string * option value)) (first : bool) : string :=
        match ps with
        | [] => EmptyString
        | (_, None) :: r => members r first
        | (k, Some x) :: r =>
            (if first then EmptyString else ",") ++
            quote k ++ ":" ++ stringify x ++ members r false
        end in
      "{" ++ members props true ++ "}"
  end.

(** The reader of a quoted string, after its opening quote: the inverse
    of [escape_string] up to the closing quote, with what follows it. *)
Definition hex_value (c : ascii) : option N :=
  let n := N_of_ascii c in
  if ((48 <=? n) && (n <=? 57))%N then Some (n - 48)%N
  else if ((97 <=? n) && (n <=? 102))%N then Some (n - 87)%N
  else None.

Definition simple_escape (c : ascii) : option ascii :=
  let n := N_of_ascii c in
  if (n =? 98)%N then Some (ascii_of_N 8)
  else if (n =? 116)%N then Some (ascii_of_N 9)
  else if (n =? 110)%N then Some (ascii_of_N 10)
  else if (n =? 102)%N then Some (ascii_of_N 12)
  else if (n =? 114)%N then Some (ascii_of_N 13)
  else if (n =? 34)%N then Some dquote
  else if (n =? 92)%N then Some backslash
  else None.

Definition cons_fst (c : ascii) (p : string * string) : string * string :=
  (String c (fst p), snd p).

Fixpoint unquote (s : string) : option (string * string) :=
  match s with
  | EmptyString => None
  | String c r =>
      if (N_of_ascii c =? 34)%N then Some (EmptyString, r)
      else if (N_of_ascii c =? 92)%N then
        match r with
        | EmptyString => None
        | String e r1 =>
            if (N_of_ascii e =? 117)%N then
              match r1 with
              | String h1 (String h2 (String h3 (String h4 r2))) =>
                  match hex_value h1, hex_value h2, hex_value h3, hex_value h4 with
                  | Some 0%N, Some 0%N, Some a, Some b =>
                      option_map (cons_fst (ascii_of_N (16 * a + b))) (unquote r2)
                  | _, _, _, _ => None
                  end
              | _ => None
              end
            else
              match simple_escape e with
              | Some x => option_map (cons_fst x) (unquote r1)
              | None => None
              end
        end
      else if (N_of_ascii c <? 32)%N then None
      else option_map (cons_fst c) (unquote r)
  end.

End JSON.

Abbreviation Headers := (gmap string string).

(** ** Statements with state and exceptions

    A computation over a state [S] either returns a value or throws, and
    leaves a state behind in both cases: what was written before a [throw]
    stays written. *)

Definition M (S A : Type) : Type := S -> Completion A * S.

Definition ret {S A : Type} (a : A) : M S A := fun s => (Return a, s).

Definition throw {S A : Type} (e : exn) : M S A := fun s => (Throw e, s).

Definition bind {S A B : Type} (m : M S A) (k : A -> M S B) : M S B :=
  fun s =>
    match m s with
    | (Return a, s') => k a s'
    | (Throw e, s') => (Throw e, s')
    end.

(** [try { m } catch (error) { h error }] *)
Definition try_catch {S A : Type} (m : M S A) (h : exn -> M S A) : M S A :=
  fun s =>
    match m s with
    | (Return a, s') => (Return a, s')
    | (Throw e, s') => h e s'
    end.

Definition gets {S A : Type} (f : S -> A) : M S A := fun s => (Return (f s), s).

Definition modify {S : Type} (f : S -> S) : M S unit := fun s => (Return tt, f s).

(** A call whose completion does not depend on the state. *)
Definition lift {S A : Type} (c : Completion A) : M S A := fun s => (c, s).

Definition when {S : Type} (b : bool) (m : M S unit) : M S unit :=
  if b then m else ret tt.

Notation "'let*' x ':=' m 'in' k" := (bind m (fun x => k))
  (at level 10, x name, m at level 100, k at level 200, only parsing).

(** A JS object the code never looks into: its reference. [===] on two
    objects compares the references. *)
Definition ObjRef := positive.

#[global] Instance ObjRef_eq_dec : EqDecision ObjRef := Pos.eq_dec.

(** ** [getDefinitions.ts] *)

Module GetDefinitions.

(** The definitions document: an object, as its type says, parsed from a
    response body. Being an object it is truthy, and two documents are
    [===] when they are one object. A body that parses to [null] or
    to another falsy value, which [response.json()] does not rule out,
    is outside this embedding. *)
Definition ClientFeaturesResponse := ObjRef.

#[global] Instance ClientFeaturesResponse_eq_dec : EqDecision ClientFeaturesResponse :=
  Pos.eq_dec.

Definition defaultUrl : string := "http://localhost:4242/api/client/features".
Definition defaultToken : string := "default:development.unleash-insecure-api-token".

(** [number | false] *)
Inductive Revalidate : Type :=
  | Seconds (n : Z)
  | NoRevalidate.

Record NextOptions : Type := {
  revalidate : option Revalidate;
  tags : option (list string);
}.

(** An optional property whose presence matters: an object may lack it,
    have it with the value [undefined], or have it with a value. A spread
    copies it in the last two cases. *)
Inductive Optional (A : Type) : Type :=
  | Absent
  | Undefined
  | Defined (a : A).
Arguments Absent {A}.
Arguments Undefined {A}.
Arguments Defined {A} a.

(** [HeadersInit], the three forms [RequestInit] allows for [headers]: a
    plain object with its own properties in order, a property being [None]
    when its value is [null] or [undefined]; a [Headers] instance; an array
    of name and value pairs. *)
Inductive HeadersInit : Type :=
  | PlainObject (props : list (string * option string))
  | HeadersInstance (pairs : list (string * string))
  | PairArray (pairs : list (string * string)).

(** [Object.entries] of the three forms: the properties of a plain object;
    nothing for a [Headers] instance, which has no own enumerable property;
    for an array its indices, each with its pair, which [String] then
    joins with a comma. *)
Definition Object_entries (h : HeadersInit) : list (string * option string) :=
  match h with
  | PlainObject props => props
  | HeadersInstance _ => []
  | PairArray pairs =>
      imap (fun i kv => (pretty (N.of_nat i), Some (fst kv ++ "," ++ snd kv))) pairs
  end.

(** [FetchOptions]: the other properties of [RequestInit] are passed to
    [fetch] as they are and left out here. *)
Record FetchOptions : Type := {
  headers : option HeadersInit;
  next : Optional NextOptions;
}.

Definition noFetchOptions : FetchOptions := {| headers := None; next := Absent |}.

(** The object [getDefaultConfig] returns. *)
Record Config : Type := {
  appName : string;
  url : string;
  token : option string;
  instanceId : option string;
  fetchOptions : FetchOptions;
}.

(** [Partial<Config>]: a property is [None] when the object does not have
    it. *)
Record PartialConfig : Type := {
  p_appName : option string;
  p_url : option string;
  p_token : option string;
  p_instanceId : option string;
  p_fetchOptions : option FetchOptions;
}.

Definition noConfig : PartialConfig :=
  {| p_appName := None; p_url := None; p_token := None; p_instanceId := None;
     p_fetchOptions := None |}.

(** [process.env] *)
Record Env : Type := {
  UNLEASH_SERVER_API_URL : option string;
  NEXT_PUBLIC_UNLEASH_SERVER_API_URL : option string;
  UNLEASH_SERVER_API_TOKEN : option string;
  UNLEASH_SERVER_INSTANCE_ID : option string;
  UNLEASH_APP_NAME : option string;
  NEXT_PUBLIC_UNLEASH_APP_NAME : option string;
}.

(** The response of [fetch], as far as the code reads it: the status, the
    [etag] header as [headers.get] gives it, and what [json()] resolves or
    rejects with. *)
Record Response : Type := {
  status : Z;
  etag_header : option string;
  json : Completion ClientFeaturesResponse;
}.

(** [response.ok] *)
Definition ok (r : Response) : bool := (200 <=? status r) && (status r <=? 299).

(** The second argument of [fetch]: [{ ...fetchOptions, headers }]. *)
Record RequestInit : Type := {
  init_next : Optional NextOptions;
  init_headers : Headers;
}.

(** What the module imports and the platform provides: the two strings of
    [package.json], [removeTrailingSlash] of [./utils], the [URL]
    constructor followed by [toString] (which throws on an invalid URL),
    the environment and [fetch]. *)
Record Platform : Type := {
  version : string;
  supportedSpecVersion : string;
  removeTrailingSlash : option string -> option string;
  URL_toString : string -> Completion string;
  env : Env;
  fetch : string -> RequestInit -> Completion Response;
}.

(** [a || b] on optional strings. *)
Definition oor (a b : option string) : option string :=
  if otruthy a then a else b.

Definition getDefaultConfig (P : Platform) (defaultAppName : string) : Config :=
  let baseUrl :=
    removeTrailingSlash P
      (oor (UNLEASH_SERVER_API_URL (env P))
           (NEXT_PUBLIC_UNLEASH_SERVER_API_URL (env P))) in
  let envToken := UNLEASH_SERVER_API_TOKEN (env P) in
  let instanceId := UNLEASH_SERVER_INSTANCE_ID (env P) in
  let token :=
    if otruthy envToken then envToken
    else if negb (otruthy instanceId) then Some defaultToken
    else None in
  {| appName :=
       or_empty
         (oor (UNLEASH_APP_NAME (env P))
              (oor (NEXT_PUBLIC_UNLEASH_APP_NAME (env P)) (Some defaultAppName)));
     url :=
       match baseUrl with
       | Some b => if truthy b then b ++ "/client/features" else defaultUrl
       | None => defaultUrl
       end;
     token := if otruthy token then token else None;
     instanceId := if otruthy instanceId then instanceId else None;
     fetchOptions := noFetchOptions |}.

(** [{ ...getDefaultConfig(), ...(config || {}) }], for a caller's object
  whose properties are given with a value or left out: [None] is a
  property left out. A property given as [undefined], which the spread
  would copy over the default, is outside this embedding. *)
Definition mergeConfig (d : Config) (config : option PartialConfig) : Config :=
  match config with
  | None => d
  | Some c =>
      {| appName := default (appName d) (p_appName c);
         url := default (url d) (p_url c);
         token := match p_token c with Some t => Some t | None => token d end;
         instanceId :=
           match p_instanceId c with Some i => Some i | None => instanceId d end;
         fetchOptions := default (fetchOptions d) (p_fetchOptions c) |}
  end.

Record CacheEntry : Type := {
  etag : option string;
  definitions : option ClientFeaturesResponse;
}.

(** What a call does besides reading and writing the cache. *)
Inductive Event : Type :=
  | ConsoleWarn
  | ConsoleError
  | Fetch (url : string) (init : RequestInit)
  | ReadJson.

(** The module's state: [definitionsCache], a [Map<string, CacheEntry>],
    and the events so far, latest first. *)
Record State : Type := {
  definitionsCache : gmap string CacheEntry;
  events : list Event;
}.

Definition emit (e : Event) : M State unit :=
  modify (fun s => {| definitionsCache := definitionsCache s; events := e :: events s |}).

Definition cache_get (k : string) : M State (option CacheEntry) :=
  gets (fun s => definitionsCache s !! k).

Definition cache_set (k : string) (v : CacheEntry) : M State unit :=
  modify (fun s => {| definitionsCache := <[k := v]> (definitionsCache s);
                      events := events s |}).

Definition cache_delete (k : string) : M State unit :=
  modify (fun s => {| definitionsCache := delete k (definitionsCache s);
                      events := events s |}).

Definition getCacheKey (url : string) (headers : Headers) : string :=
  JSON.stringify
    (JSON.Obj
       [ ("url", Some (JSON.Str url));
         ("authorization", Some (JSON.Str (or_empty (headers !! "authorization"))));
         ("instanceId", Some (JSON.Str (or_empty (headers !! "unleash-instanceid"))));
         ("appName", Some (JSON.Str (or_empty (headers !! "unleash-appname")))) ]).

(** The headers the function sets itself. *)
Definition ownHeaders (P : Platform) (c : Config) : Headers :=
  let sendAuthorizationToken :=
    negb (otruthy (instanceId c))
    || negb (bool_decide (token c = Some defaultToken)) in
  let headers : Headers :=
    <["unleash-appname" := appName c]>
      (<["unleash-sdk" := "unleash-nextjs-sdk:" ++ version P]>
         (<["unleash-client-spec" := supportedSpecVersion P]>
            (<["user-agent" := appName c]>
               (<["content-type" := "application/json"]> ∅)))) in
  let headers :=
    match token c with
    | Some t =>
        if sendAuthorizationToken && truthy t
        then <["authorization" := t]> headers else headers
    | None => headers
    end in
  match instanceId c with
  | Some i => if truthy i then <["unleash-instanceid" := i]> headers else headers
  | None => headers
  end.

(** [headers[name] = value] on the plain object [headers]: an assignment
    of a string to [__proto__] sets no property. *)
Definition setHeader (name value : string) (headers : Headers) : Headers :=
  if String.eqb name "__proto__" then headers else <[name := value]> headers.

(** [Object.entries(fetchOptions.headers).forEach(...)]: every property
    with a value is set under its lower-cased name, in the object's order. *)
Definition addCallerHeaders (entries : list (string * option string))
    (headers : Headers) : Headers :=
  fold_left
    (fun acc kv =>
       match snd kv with
       | Some value => setHeader (toLowerCase (fst kv)) value acc
       | None => acc
       end)
    entries headers.

(** The headers before the cache is consulted (lines 98 to 120). *)
Definition mergedHeaders (P : Platform) (c : Config) : Headers :=
  match headers (fetchOptions c) with
  | Some h => addCallerHeaders (Object_entries h) (ownHeaders P c)
  | None => ownHeaders P c
  end.

(** Lines 125 to 127: the conditional header out of the cache. *)
Definition withIfNoneMatch (headers : Headers) (cached : option CacheEntry) : Headers :=
  match cached ≫= etag with
  | Some e =>
      if negb (otruthy (headers !! "if-none-match")) && truthy e
      then <["if-none-match" := e]> headers
      else headers
  | None => headers
  end.

Definition staleCacheMessage : string :=
  "Unleash: Received 304 Not Modified but no cached definitions are available.".

Definition getDefinitions (P : Platform) (config : option PartialConfig)
  : M State ClientFeaturesResponse :=
  let c := mergeConfig (getDefaultConfig P "nextjs") config in
  let* _ := when (bool_decide (url c = defaultUrl)) (emit ConsoleWarn) in
  let* _ := when (bool_decide (token c = Some defaultToken)) (emit ConsoleError) in
  let* fetchUrl := lift (URL_toString P (url c)) in
  let headers := mergedHeaders P c in
  let cacheKey := getCacheKey fetchUrl headers in
  let* cached := cache_get cacheKey in
  let headers := withIfNoneMatch headers cached in
  let init := {| init_next := next (fetchOptions c); init_headers := headers |} in
  let* _ := emit (Fetch fetchUrl init) in
  let* response := lift (fetch P fetchUrl init) in
  if status response =? 304 then
    match cached ≫= definitions with
    | Some d => ret d
    | None => throw (Error staleCacheMessage)
    end
  else
    let* _ := emit ReadJson in
    let* definitions := lift (json response) in
    let* _ :=
      if ok response then
        match etag_header response with
        | Some e =>
            if truthy e
            then cache_set cacheKey {| etag := Some e; definitions := Some definitions |}
            else cache_delete cacheKey
        | None => cache_delete cacheKey
        end
      else ret tt in
    ret definitions.

End GetDefinitions.

(** ** [flag.ts] *)

Module Flag.

Import GetDefinitions.

(** [Partial<IVariant>], a plain object; [{}] is the empty one. *)
Definition IVariant := list (string * option JSON.value).

Record IToggle : Type := {
  name : string;
  toggle_enabled : bool;
  toggle_variant : IVariant;
  impressionData : bool;
}.

(** The evaluation context, a plain object of strings, numbers and nested
    properties. *)
Definition Context := list (string * option JSON.value).

(** Modelled from the spec: the type [DefinitionsCache] that [flag.ts]
    imports from [./getDefinitions], a cache handle with the two optional
    properties [etag] and [definitions] that [flag] reads. *)
Definition DefinitionsCache := CacheEntry.

(** The type [EvaluationCache]; its properties are read as
    [EvaluationCache.etag] and so on, those of a definitions cache as
    [GetDefinitions.etag] and [GetDefinitions.definitions]. *)
Module EvaluationCache.
Record t : Type := {
  etag : option string;
  definitions : option ClientFeaturesResponse;
  contextKey : option string;
  toggles : option (list IToggle);
}.
End EvaluationCache.

Definition createEvaluationCache (initial : option EvaluationCache.t)
  : EvaluationCache.t :=
  {| EvaluationCache.etag := initial ≫= EvaluationCache.etag;
     EvaluationCache.definitions := initial ≫= EvaluationCache.definitions;
     EvaluationCache.contextKey := initial ≫= EvaluationCache.contextKey;
     EvaluationCache.toggles := initial ≫= EvaluationCache.toggles |}.

(** Cache objects live in a store and are passed by handle; a handle that
    was never written holds the empty object of [createDefinitionsCache()]
    or [createEvaluationCache()]. *)
Definition Handle := nat.

#[global] Instance CacheEntry_inhabited : Inhabited CacheEntry :=
  populate {| GetDefinitions.etag := None; GetDefinitions.definitions := None |}.

#[global] Instance EvaluationCache_inhabited : Inhabited EvaluationCache.t :=
  populate (createEvaluationCache None).

(** The two module-level singletons. *)
Definition defaultDefinitionsCache : Handle := 0%nat.
Definition defaultEvaluationCache : Handle := 0%nat.

(** The argument of [getDefinitionsCached]: a partial configuration and
    the cache handle. *)
Record DefinitionsOptions : Type := {
  config : PartialConfig;
  d_cache : Handle;
}.

(** [FlagOptions]: [rest] holds [appName], [url], [token] and
    [instanceId], the properties passed on as [restOptions]. *)
Record FlagOptions : Type := {
  evaluationCache : option Handle;
  cache : option Handle;
  fetchOptions : option FetchOptions;
  rest : PartialConfig;
}.

(** [{ ...restOptions, fetchOptions }] *)
Definition with_fetchOptions (c : PartialConfig) (f : FetchOptions) : PartialConfig :=
  {| p_appName := p_appName c; p_url := p_url c; p_token := p_token c;
     p_instanceId := p_instanceId c; p_fetchOptions := Some f |}.

Record FlagsClient : Type := {
  isEnabled : string -> Completion bool;
  getVariant : string -> Completion IVariant;
}.

(** The three functions [flag.ts] imports. [getDefinitionsCached] may write
    to the definitions cache it is given, also when it throws. *)
Record Imports : Type := {
  getDefinitionsCached :
    DefinitionsOptions -> DefinitionsCache -> Completion ClientFeaturesResponse * DefinitionsCache;
  evaluateFlags : ClientFeaturesResponse -> Context -> Completion (list IToggle);
  flagsClient : list IToggle -> Completion FlagsClient;
}.

(** The calls made to the imports, latest first. *)
Inductive Call : Type :=
  | CallGetDefinitionsCached (options : DefinitionsOptions)
  | CallEvaluateFlags (definitions : ClientFeaturesResponse) (context : Context)
  | CallFlagsClient (toggles : list IToggle).

Record World : Type := {
  definitionsCaches : gmap Handle DefinitionsCache;
  evaluationCaches : gmap Handle EvaluationCache.t;
  calls : list Call;
}.

Definition record (c : Call) : M World unit :=
  modify (fun w => {| definitionsCaches := definitionsCaches w;
                      evaluationCaches := evaluationCaches w;
                      calls := c :: calls w |}).

Definition readDefinitionsCache (h : Handle) : M World DefinitionsCache :=
  gets (fun w => definitionsCaches w !!! h).

Definition readEvaluationCache (h : Handle) : M World EvaluationCache.t :=
  gets (fun w => evaluationCaches w !!! h).

(** An assignment to one property of the evaluation cache at [h]. *)
Definition assign (h : Handle) (f : EvaluationCache.t -> EvaluationCache.t)
  : M World unit :=
  modify (fun w =>
    {| definitionsCaches := definitionsCaches w;
       evaluationCaches := <[h := f (evaluationCaches w !!! h)]> (evaluationCaches w);
       calls := calls w |}).

Definition set_toggles (v : list IToggle) (c : EvaluationCache.t) : EvaluationCache.t :=
  {| EvaluationCache.etag := EvaluationCache.etag c;
     EvaluationCache.definitions := EvaluationCache.definitions c;
     EvaluationCache.contextKey := EvaluationCache.contextKey c;
     EvaluationCache.toggles := Some v |}.

Definition set_contextKey (v : string) (c : EvaluationCache.t) : EvaluationCache.t :=
  {| EvaluationCache.etag := EvaluationCache.etag c;
     EvaluationCache.definitions := EvaluationCache.definitions c;
     EvaluationCache.contextKey := Some v;
     EvaluationCache.toggles := EvaluationCache.toggles c |}.

Definition set_definitions (v : option ClientFeaturesResponse) (c : EvaluationCache.t)
  : EvaluationCache.t :=
  {| EvaluationCache.etag := EvaluationCache.etag c;
     EvaluationCache.definitions := v;
     EvaluationCache.contextKey := EvaluationCache.contextKey c;
     EvaluationCache.toggles := EvaluationCache.toggles c |}.

Definition set_etag (v : option string) (c : EvaluationCache.t) : EvaluationCache.t :=
  {| EvaluationCache.etag := v;
     EvaluationCache.definitions := EvaluationCache.definitions c;
     EvaluationCache.contextKey := EvaluationCache.contextKey c;
     EvaluationCache.toggles := EvaluationCache.toggles c |}.

(** [await getDefinitionsCached({ ...restOptions, cache, fetchOptions })] *)
Definition callGetDefinitionsCached (I : Imports) (o : DefinitionsOptions)
  : M World ClientFeaturesResponse :=
  let* _ := record (CallGetDefinitionsCached o) in
  fun w =>
    let '(r, c) := getDefinitionsCached I o (definitionsCaches w !!! d_cache o) in
    (r, {| definitionsCaches := <[d_cache o := c]> (definitionsCaches w);
           evaluationCaches := evaluationCaches w;
           calls := calls w |}).

Definition callEvaluateFlags (I : Imports) (d : ClientFeaturesResponse) (context : Context)
  : M World (list IToggle) :=
  let* _ := record (CallEvaluateFlags d context) in
  lift (evaluateFlags I d context).

Definition callFlagsClient (I : Imports) (ts : list IToggle) : M World FlagsClient :=
  let* _ := record (CallFlagsClient ts) in
  lift (flagsClient I ts).

(** Order-sensitive: different key orders produce different cache keys. *)
Definition serializeContext (context : Context) : string :=
  JSON.stringify (JSON.Obj context).

(** [a === b] on optional strings and on optional object references. *)
Definition strict_eq {A : Type} `{EqDecision A} (a b : option A) : bool :=
  bool_decide (a = b).

(** What [flag] resolves with. *)
Record FlagResult : Type := {
  enabled : bool;
  variant : IVariant;
  error : option exn;
}.

(** [a ?? b] *)
Definition nullish {A : Type} (a : option A) (b : A) : A :=
  match a with
  | Some x => x
  | None => b
  end.

(** The [else] branch, lines 87 to 93. *)
Definition evaluateAndStore (I : Imports) (evaluationCache definitionsCache : Handle)
    (definitions : ClientFeaturesResponse) (context : Context) (contextKey : string)
  : M World (list IToggle) :=
  let* toggles := callEvaluateFlags I definitions context in
  let* _ := assign evaluationCache (set_toggles toggles) in
  let* _ := assign evaluationCache (set_contextKey contextKey) in
  let* dc := readDefinitionsCache definitionsCache in
  let* _ :=
    assign evaluationCache
      (set_definitions (Some (nullish (GetDefinitions.definitions dc) definitions))) in
  let* dc := readDefinitionsCache definitionsCache in
  let* _ := assign evaluationCache (set_etag (GetDefinitions.etag dc)) in
  ret toggles.

(** The [try] block, lines 65 to 101. *)
Definition flagTry (I : Imports) (flagName : string) (context : Context)
    (restOptions : PartialConfig) (mergedFetchOptions : FetchOptions)
    (definitionsCache evaluationCache : Handle) : M World FlagResult :=
  let* definitions :=
    callGetDefinitionsCached I
      {| config := with_fetchOptions restOptions mergedFetchOptions;
         d_cache := definitionsCache |} in
  let contextKey := serializeContext context in
  let* ec := readEvaluationCache evaluationCache in
  let* dc := readDefinitionsCache definitionsCache in
  let definitionsMatch :=
    if otruthy (EvaluationCache.etag ec) && otruthy (GetDefinitions.etag dc)
    then strict_eq (EvaluationCache.etag ec) (GetDefinitions.etag dc)
    else strict_eq (EvaluationCache.definitions ec) (GetDefinitions.definitions dc) in
  let* toggles :=
    match EvaluationCache.toggles ec with
    | Some stored =>
        if strict_eq (EvaluationCache.contextKey ec) (Some contextKey)
           && definitionsMatch
        then ret stored
        else evaluateAndStore I evaluationCache definitionsCache
               definitions context contextKey
    | None =>
        evaluateAndStore I evaluationCache definitionsCache
          definitions context contextKey
    end in
  let* client := callFlagsClient I toggles in
  let* enabled := lift (isEnabled client flagName) in
  let* variant := lift (getVariant client flagName) in
  ret {| enabled := enabled; variant := variant; error := None |}.

(** [{ next: { revalidate }, ...(providedFetchOptions || {}) }]: a [next]
    the caller's object has, be it [undefined], replaces the default. *)
Definition spreadOver (revalidate : Revalidate) (provided : option FetchOptions)
  : FetchOptions :=
  {| headers := provided ≫= headers;
     next :=
       match provided with
       | Some given =>
           match next given with
           | Absent => Defined {| revalidate := Some revalidate; tags := None |}
           | own => own
           end
       | None => Defined {| revalidate := Some revalidate; tags := None |}
       end |}.

(** [options?.fetchOptions?.next?.revalidate] *)
Definition providedRevalidate (options : option FlagOptions) : option Revalidate :=
  match options ≫= fetchOptions with
  | Some given =>
      match next given with
      | Defined n => revalidate n
      | _ => None
      end
  | None => None
  end.

Definition flag (I : Imports) (flagName : string) (context : option Context)
    (options : option FlagOptions) : M World FlagResult :=
  let context := default [] context in
  let revalidate := nullish (providedRevalidate options) (Seconds 15) in
  let providedEvaluationCache := options ≫= evaluationCache in
  let providedCache := options ≫= cache in
  let providedFetchOptions := options ≫= fetchOptions in
  let restOptions := default noConfig (rest <$> options) in
  let definitionsCache := nullish providedCache defaultDefinitionsCache in
  let evaluationCache := nullish providedEvaluationCache defaultEvaluationCache in
  let mergedFetchOptions := spreadOver revalidate providedFetchOptions in
  try_catch
    (flagTry I flagName context restOptions mergedFetchOptions
       definitionsCache evaluationCache)
    (fun error => ret {| enabled := false; variant := []; error := Some error |}).

End Flag.

(** ** What the claims speak of, for [getDefinitions] *)

Module GetDefinitionsSpec.

Import GetDefinitions.

(** The configuration a call works with. *)
Definition resolve (P : Platform) (config : option PartialConfig) : Config :=
  mergeConfig (getDefaultConfig P "nextjs") config.

(** The cache key a call computes, once the URL is [fetchUrl]. *)
Definition cacheKeyAt (P : Platform) (config : option PartialConfig) (fetchUrl : string)
  : string :=
  getCacheKey fetchUrl (mergedHeaders P (resolve P config)).

(** The request a call sends when the cache is [cache]. *)
Definition requestAt (P : Platform) (config : option PartialConfig)
    (cache : gmap string CacheEntry) (fetchUrl : string) : RequestInit :=
  {| init_next := next (fetchOptions (resolve P config));
     init_headers :=
       withIfNoneMatch (mergedHeaders P (resolve P config))
         (cache !! cacheKeyAt P config fetchUrl) |}.

(** The call gets as far as a response: the URL is valid and is
    [fetchUrl], and [fetch] resolves with [r]. *)
Definition receives (P : Platform) (config : option PartialConfig)
    (cache : gmap string CacheEntry) (fetchUrl : string) (r : Response) : Prop :=
  URL_toString P (url (resolve P config)) = Return fetchUrl /\
  fetch P fetchUrl (requestAt P config cache fetchUrl) = Return r.

(** A call on the cache [cache], with an empty list of events. *)
Definition run (P : Platform) (config : option PartialConfig)
    (cache : gmap string CacheEntry) : Completion ClientFeaturesResponse * State :=
  getDefinitions P config {| definitionsCache := cache; events := [] |}.

(** The value the caller supplies for the header [name]: that of the last
    property with a value whose lower-cased name is [name]. *)
Definition callerHeader (name : string) (entries : list (string * option string))
  : option string :=
  fold_left
    (fun acc kv =>
       match snd kv with
       | Some value => if String.eqb (toLowerCase (fst kv)) name then Some value else acc
       | None => acc
       end)
    entries None.

(** The value the caller's headers hold for [name], whatever their form. *)
Definition suppliedHeader (name : string) (h : HeadersInit) : option string :=
  match h with
  | PlainObject props => callerHeader name props
  | HeadersInstance pairs | PairArray pairs =>
      callerHeader name (map (fun kv => (fst kv, Some (snd kv))) pairs)
  end.

(** The [if-none-match] the caller supplies. *)
Definition suppliedIfNoneMatch (c : Config) : option string :=
  headers (fetchOptions c) ≫= suppliedHeader "if-none-match".

(** The caller gives its headers as a plain object, or gives none. *)
Definition plainHeaders (c : Config) : Prop :=
  match headers (fetchOptions c) with
  | Some (PlainObject _) => True
  | Some _ => False
  | None => True
  end.

(** The value of a header, the empty string when the header is absent. *)
Definition headerOrEmpty (headers : Headers) (name : string) : string :=
  match headers !! name with
  | Some value => value
  | None => EmptyString
  end.

(** The four fields of a caller's identity: the endpoint URL, the
    authorization credential, the instance identifier and the application
    name, as the request carries them. *)
Definition composingFields (url : string) (headers : Headers)
  : string * string * string * string :=
  (url,
   headerOrEmpty headers "authorization",
   headerOrEmpty headers "unleash-instanceid",
   headerOrEmpty headers "unleash-appname").

(** The four fields the cache key is composed of: the URL and the
    authorization, instance-id and application-name headers, an absent
    header counting as the empty string. *)
Definition keyFields (url : string) (headers : Headers)
  : string * string * string * string :=
  (url,
   or_empty (headers !! "authorization"),
   or_empty (headers !! "unleash-instanceid"),
   or_empty (headers !! "unleash-appname")).

(** The lower-cased names of the caller's headers that have a value. *)
Definition callerNames (entries : list (string * option string)) : list string :=
  omap (fun kv => match snd kv with
                  | Some _ => Some (toLowerCase (fst kv))
                  | None => None
                  end) entries.

(** The configuration [c] with the caller's headers replaced. *)
Definition withCallerHeaders (c : Config) (entries : list (string * option string))
  : Config :=
  {| appName := appName c; url := url c; token := token c; instanceId := instanceId c;
     fetchOptions :=
       {| headers := Some (PlainObject entries); next := next (fetchOptions c) |} |}.

(** The state after the two console messages of lines 82 to 92. *)
Definition warned (P : Platform) (config : option PartialConfig) (s : State) : State :=
  snd ((let* _ :=
          when (bool_decide (url (resolve P config) = defaultUrl)) (emit ConsoleWarn) in
        when (bool_decide (token (resolve P config) = Some defaultToken))
          (emit ConsoleError)) s).

(** *** A platform to run the function on

    No environment variable is set, every URL is valid and is its own
    normal form, and [fetch] resolves or rejects with [r] whatever the
    request. *)
Definition noEnv : Env :=
  {| UNLEASH_SERVER_API_URL := None; NEXT_PUBLIC_UNLEASH_SERVER_API_URL := None;
     UNLEASH_SERVER_API_TOKEN := None; UNLEASH_SERVER_INSTANCE_ID := None;
     UNLEASH_APP_NAME := None; NEXT_PUBLIC_UNLEASH_APP_NAME := None |}.

Definition answering (r : Completion Response) : Platform :=
  {| version := "1.0.0"; supportedSpecVersion := "5.1.0";
     removeTrailingSlash := id; URL_toString := Return; env := noEnv;
     fetch := fun _ _ => r |}.

(** The key of a call with the default configuration on that platform. *)
Definition defaultKey : string :=
  cacheKeyAt (answering (Throw (Error "offline"))) None defaultUrl.

Definition entry (e : string) (d : ClientFeaturesResponse) : CacheEntry :=
  {| etag := Some e; definitions := Some d |}.

(** A configuration whose only property is [fetchOptions.headers]. *)
Definition withHeaders (entries : list (string * option string)) : option PartialConfig :=
  Some {| p_appName := None; p_url := None; p_token := None; p_instanceId := None;
          p_fetchOptions :=
            Some {| headers := Some (PlainObject entries); next := Absent |} |}.

(** The cache that holds the payload [7] with [etag-1] under [defaultKey]. *)
Definition seeded : gmap string CacheEntry :=
  <[defaultKey := entry "etag-1" 7%positive]> ∅.

(** A successful response whose ETag header is empty, one without ETag
    header, and the cache the latter leaves behind on the seeded cache. *)
Definition okEmptyEtag (d : ClientFeaturesResponse) : Response :=
  {| status := 200; etag_header := Some EmptyString; json := Return d |}.

Definition okNoEtag (d : ClientFeaturesResponse) : Response :=
  {| status := 200; etag_header := None; json := Return d |}.

(** Responses to run the function on. *)
Definition notModified : Response :=
  {| status := 304; etag_header := Some "etag-2";
     json := Throw (SyntaxError "Unexpected end of JSON input") |}.

Definition okWithEtag (d : ClientFeaturesResponse) : Response :=
  {| status := 200; etag_header := Some "etag-2"; json := Return d |}.

Definition serverError (d : ClientFeaturesResponse) : Response :=
  {| status := 500; etag_header := Some "etag-2"; json := Return d |}.

Definition okUnreadable : Response :=
  {| status := 200; etag_header := Some "etag-2";
     json := Throw (SyntaxError "Unexpected token < in JSON at position 0") |}.

(** The cache after a successful response without ETag on the seeded
    cache. *)
Definition evicted : gmap string CacheEntry :=
  definitionsCache (snd (run (answering (Return (okNoEtag 9%positive))) None seeded)).

(** A configuration whose only property is [fetchOptions.headers], a
    [Headers] instance. *)
Definition withHeadersInstance (pairs : list (string * string)) : option PartialConfig :=
  Some {| p_appName := None; p_url := None; p_token := None; p_instanceId := None;
          p_fetchOptions :=
            Some {| headers := Some (HeadersInstance pairs); next := Absent |} |}.

End GetDefinitionsSpec.

(** ** What the claims speak of, for [flag] *)

Module FlagSpec.

Import GetDefinitions Flag.

(** The two cache objects a call works on. *)
Definition definitionsHandle (options : option FlagOptions) : Handle :=
  nullish (options ≫= cache) defaultDefinitionsCache.

Definition evaluationHandle (options : option FlagOptions) : Handle :=
  nullish (options ≫= evaluationCache) defaultEvaluationCache.

(** [mergedFetchOptions] *)
Definition mergedFetchOptionsOf (options : option FlagOptions) : FetchOptions :=
  spreadOver (nullish (providedRevalidate options) (Seconds 15)) (options ≫= fetchOptions).

(** The argument of the call to [getDefinitionsCached]. *)
Definition definitionsOptions (options : option FlagOptions) : DefinitionsOptions :=
  {| config :=
       with_fetchOptions (default noConfig (rest <$> options))
         (mergedFetchOptionsOf options);
     d_cache := definitionsHandle options |}.

(** A world in which no call has been made yet. *)
Definition start (dcs : gmap Handle DefinitionsCache)
    (ecs : gmap Handle EvaluationCache.t) : World :=
  {| definitionsCaches := dcs; evaluationCaches := ecs; calls := [] |}.

(** What the definitions fetch of a call does: its completion, and the
    definitions cache it leaves. *)
Definition fetched (I : Imports) (options : option FlagOptions)
    (dcs : gmap Handle DefinitionsCache)
  : Completion ClientFeaturesResponse * DefinitionsCache :=
  getDefinitionsCached I (definitionsOptions options)
    (dcs !!! definitionsHandle options).

(** The serialization of the caller's context. *)
Definition contextKeyOf (context : option Context) : string :=
  serializeContext (default [] context).

(** An etag that is there and is not the empty string. *)
Definition nonEmpty (o : option string) : Prop :=
  exists s, o = Some s /\ s ≠ EmptyString.

(** The freshness signal, in the words of the specification: equality of
    the etags when both caches carry a non-empty one, and otherwise
    identity of the stored definitions with the current ones. *)
Definition freshness (ec : EvaluationCache.t) (dc : DefinitionsCache) : Prop :=
  (nonEmpty (EvaluationCache.etag ec) /\ nonEmpty (GetDefinitions.etag dc) /\
   EvaluationCache.etag ec = GetDefinitions.etag dc)
  \/
  (~ (nonEmpty (EvaluationCache.etag ec) /\ nonEmpty (GetDefinitions.etag dc)) /\
   EvaluationCache.definitions ec = GetDefinitions.definitions dc).

(** The three conditions of reuse, in the words of the specification. *)
Definition reusePermitted (ec : EvaluationCache.t) (dc : DefinitionsCache)
    (key : string) : Prop :=
  is_Some (EvaluationCache.toggles ec) /\
  EvaluationCache.contextKey ec = Some key /\
  freshness ec dc.

(** The condition of the [if] of lines 80 to 84, as the code computes it. *)
Definition reusable (ec : EvaluationCache.t) (dc : DefinitionsCache) (key : string)
  : bool :=
  match EvaluationCache.toggles ec with
  | Some _ =>
      strict_eq (EvaluationCache.contextKey ec) (Some key)
      && (if otruthy (EvaluationCache.etag ec) && otruthy (GetDefinitions.etag dc)
          then strict_eq (EvaluationCache.etag ec) (GetDefinitions.etag dc)
          else strict_eq (EvaluationCache.definitions ec) (GetDefinitions.definitions dc))
  | None => false
  end.

(** The evaluator was called. *)
Definition evaluatorInvoked (cs : list Call) : Prop :=
  exists d c, CallEvaluateFlags d c ∈ cs.

(** The stored toggle list was reused: it went to the toggle facade, and
    the evaluator was not called. *)
Definition reused (ec : EvaluationCache.t) (cs : list Call) : Prop :=
  (exists stored,
     EvaluationCache.toggles ec = Some stored /\ CallFlagsClient stored ∈ cs) /\
  ~ evaluatorInvoked cs.

(** The result of the [catch] block. *)
Definition failure (e : exn) : FlagResult :=
  {| enabled := false; variant := []; error := Some e |}.

(** What lines 96 to 101 complete with, given the toggles. *)
Definition answer (I : Imports) (flagName : string) (ts : list IToggle)
  : Completion FlagResult :=
  match flagsClient I ts with
  | Throw e => Throw e
  | Return client =>
      match isEnabled client flagName with
      | Throw e => Throw e
      | Return b =>
          match getVariant client flagName with
          | Throw e => Throw e
          | Return v => Return {| enabled := b; variant := v; error := None |}
          end
      end
  end.

(** [catch]: a thrown error becomes the failure result. *)
Definition caught (c : Completion FlagResult) : FlagResult :=
  match c with
  | Return r => r
  | Throw e => failure e
  end.

(** The try block of a call. *)
Definition tryOf (I : Imports) (flagName : string) (context : option Context)
    (options : option FlagOptions) : M World FlagResult :=
  flagTry I flagName (default [] context)
    (default noConfig (rest <$> options))
    (mergedFetchOptionsOf options)
    (definitionsHandle options) (evaluationHandle options).

(** *** Imports to run the function on, after the mocks of the tests *)

Definition featureA : IToggle :=
  {| name := "feature-a"; toggle_enabled := true;
     toggle_variant :=
       [("name", Some (JSON.Str "variant")); ("enabled", Some (JSON.Bool true))];
     impressionData := false |}.

Definition disabledVariant : IVariant :=
  [("enabled", Some (JSON.Bool false)); ("name", Some (JSON.Str "disabled"))].

Definition mockClient (ts : list IToggle) : FlagsClient :=
  {| isEnabled := fun n =>
       Return (existsb (fun t => String.eqb (name t) n && toggle_enabled t) ts);
     getVariant := fun n =>
       Return (match find (fun t => String.eqb (name t) n) ts with
               | Some t => toggle_variant t
               | None => disabledVariant
               end) |}.

(** The fetch stores [currentEtag] and [currentDefinitions] in the cache
    and returns the definitions. *)
Definition mockImports (currentEtag : option string)
    (currentDefinitions : ClientFeaturesResponse) : Imports :=
  {| getDefinitionsCached := fun _ _ =>
       (Return currentDefinitions,
        {| GetDefinitions.etag := currentEtag;
           GetDefinitions.definitions := Some currentDefinitions |});
     evaluateFlags := fun _ _ => Return [featureA];
     flagsClient := fun ts => Return (mockClient ts) |}.

(** A fetch that returns the definitions and stores nothing, as for a
    source without ETag. *)
Definition uncachedImports (currentDefinitions : ClientFeaturesResponse) : Imports :=
  {| getDefinitionsCached := fun _ c => (Return currentDefinitions, c);
     evaluateFlags := fun _ _ => Return [featureA];
     flagsClient := fun ts => Return (mockClient ts) |}.

Definition user (id : string) : option Context :=
  Some [("userId", Some (JSON.Str id))].

(** A first call on empty caches with a fetch that stores nothing. *)
Definition uncachedCall : Completion FlagResult * World :=
  flag (uncachedImports 5%positive) "feature-a" (user "123") None (start ∅ ∅).

(** How often the evaluator was called. *)
Definition isEvaluation (c : Call) : bool :=
  match c with
  | CallEvaluateFlags _ _ => true
  | _ => false
  end.

Definition evaluations (cs : list Call) : nat :=
  length (List.filter isEvaluation cs).

(** Two calls in a row, on caches that start empty. *)
Definition twoCalls (I1 I2 : Imports) (context1 context2 : option Context) : World :=
  snd (flag I2 "feature-a" context2 None
         (snd (flag I1 "feature-a" context1 None (start ∅ ∅)))).

(** The world after a first call [flag("feature-a", { userId: "123" })]
    with the mocks at etag [etag-1]. *)
Definition afterFirstCall : World :=
  snd (flag (mockImports (Some "etag-1") 5%positive) "feature-a" (user "123") None
         (start ∅ ∅)).

End FlagSpec.

(** ** The rest of [getDefinitions.ts], and what its properties speak of *)

Module GetDefinitionsMore.

Import GetDefinitions GetDefinitionsSpec.

(** [__resetDefinitionsCache]: [definitionsCache.clear()]. *)
Definition __resetDefinitionsCache : M State unit :=
  modify (fun s => {| definitionsCache := ∅; events := events s |}).

(** The platform [P] with another [fetch]. *)
Definition withFetch (P : Platform)
    (f : string -> RequestInit -> Completion Response) : Platform :=
  {| version := version P; supportedSpecVersion := supportedSpecVersion P;
     removeTrailingSlash := removeTrailingSlash P; URL_toString := URL_toString P;
     env := env P; fetch := f |}.

(** The platform [P] with another environment. *)
Definition withEnv (P : Platform) (e : Env) : Platform :=
  {| version := version P; supportedSpecVersion := supportedSpecVersion P;
     removeTrailingSlash := removeTrailingSlash P; URL_toString := URL_toString P;
     env := e; fetch := fetch P |}.

Definition isFetch (e : Event) : bool :=
  match e with
  | Fetch _ _ => true
  | _ => false
  end.

(** How many requests were sent. *)
Definition fetches (evs : list Event) : nat := length (List.filter isFetch evs).

(** Every header name of [h] is in lower case. *)
Definition lowerCased (h : Headers) : Prop :=
  forall k v, h !! k = Some v -> toLowerCase k = k.

(** Every entry of the cache holds a non-empty etag. *)
Definition etagged (cache : gmap string CacheEntry) : Prop :=
  forall k entry, cache !! k = Some entry -> otruthy (etag entry) = true.

(** What the request carries for [name] when the caller's entries hold the
    value [over] for it: that value, and the function's own header
    otherwise. *)
Definition overriding (over own : option string) : option string :=
  match over with
  | Some v => Some v
  | None => own
  end.

(** Every entry of the cache holds a non-empty etag and a payload. *)
Definition wellFormed (cache : gmap string CacheEntry) : Prop :=
  forall k entry, cache !! k = Some entry ->
    otruthy (etag entry) = true /\ is_Some (definitions entry).

(** The caller's headers of a configuration. *)
Definition callerEntries (c : Config) : list (string * option string) :=
  match headers (fetchOptions c) with
  | Some h => Object_entries h
  | None => []
  end.

(** An answer with an ETag, and an environment with an instance id only. *)
Definition okFirst (d : ClientFeaturesResponse) : Response :=
  {| status := 200; etag_header := Some "etag-1"; json := Return d |}.

Definition instanceEnv : Env :=
  {| UNLEASH_SERVER_API_URL := None; NEXT_PUBLIC_UNLEASH_SERVER_API_URL := None;
     UNLEASH_SERVER_API_TOKEN := None;
     UNLEASH_SERVER_INSTANCE_ID := Some "instance-id-token";
     UNLEASH_APP_NAME := None; NEXT_PUBLIC_UNLEASH_APP_NAME := None |}.

(** A platform on which no URL is valid. *)
Definition rejectingUrls : Platform :=
  {| version := "1.0.0"; supportedSpecVersion := "5.1.0";
     removeTrailingSlash := id;
     URL_toString := fun _ => Throw (TypeError "Invalid URL"); env := noEnv;
     fetch := fun _ _ => Throw (Error "offline") |}.

(** A configuration with an instance id only. *)
Definition withInstanceId (i : string) : option PartialConfig :=
  Some {| p_appName := None; p_url := None; p_token := None; p_instanceId := Some i;
          p_fetchOptions := None |}.

(** The environment [e] with other [NEXT_PUBLIC_] variables. *)
Definition withPublic (e : Env) (publicUrl publicAppName : option string) : Env :=
  {| UNLEASH_SERVER_API_URL := UNLEASH_SERVER_API_URL e;
     NEXT_PUBLIC_UNLEASH_SERVER_API_URL := publicUrl;
     UNLEASH_SERVER_API_TOKEN := UNLEASH_SERVER_API_TOKEN e;
     UNLEASH_SERVER_INSTANCE_ID := UNLEASH_SERVER_INSTANCE_ID e;
     UNLEASH_APP_NAME := UNLEASH_APP_NAME e;
     NEXT_PUBLIC_UNLEASH_APP_NAME := publicAppName |}.

(** The names of the three headers that go into the cache key. *)
Definition identityHeader (name : string) : bool :=
  String.eqb name "authorization" || String.eqb name "unleash-instanceid"
  || String.eqb name "unleash-appname".

(** An environment with the server-side URL and application name set. *)
Definition serverEnv : Env :=
  {| UNLEASH_SERVER_API_URL := Some "http://example.org/api";
     NEXT_PUBLIC_UNLEASH_SERVER_API_URL := Some "http://example.com/api";
     UNLEASH_SERVER_API_TOKEN := None; UNLEASH_SERVER_INSTANCE_ID := None;
     UNLEASH_APP_NAME := Some "server-app";
     NEXT_PUBLIC_UNLEASH_APP_NAME := Some "public-app" |}.

(** The seeded cache with a second entry under another key. *)
Definition twoKeys : gmap string CacheEntry :=
  <["other" := entry "etag-9" 3%positive]> seeded.

End GetDefinitionsMore.

(** ** What the further properties of [flag.ts] speak of *)

Module FlagMore.

Import GetDefinitions Flag FlagSpec.

(** A context of string properties, [None] for [undefined]. *)
Definition ofStrings (l : list (string * option string)) : Context :=
  map (fun kv => (fst kv, JSON.Str <$> snd kv)) l.

(** Its properties that have a value, in order. *)
Definition definedProps (l : list (string * option string)) : list (string * string) :=
  omap (fun kv => match snd kv with
                  | Some v => Some (fst kv, v)
                  | None => None
                  end) l.

(** The members of a serialized object, as [JSON.stringify] writes them. *)
Fixpoint members (ps : list (string * option JSON.value)) (first : bool) : string :=
  match ps with
  | [] => EmptyString
  | (_, None) :: r => members r first
  | (k, Some x) :: r =>
      (if first then EmptyString else ",") ++
      JSON.quote k ++ ":" ++ JSON.stringify x ++ members r false
  end.

(** The members of an object of string properties. *)
Fixpoint rendered (l : list (string * string)) (first : bool) : string :=
  match l with
  | [] => EmptyString
  | (k, v) :: r =>
      (if first then EmptyString else ",") ++
      JSON.quote k ++ ":" ++ JSON.quote v ++ rendered r false
  end.

Definition isFetchCall (c : Call) : bool :=
  match c with
  | CallGetDefinitionsCached _ => true
  | _ => false
  end.

Definition isFacadeCall (c : Call) : bool :=
  match c with
  | CallFlagsClient _ => true
  | _ => false
  end.

Definition fetchCalls (cs : list Call) : nat := length (List.filter isFetchCall cs).
Definition facadeCalls (cs : list Call) : nat := length (List.filter isFacadeCall cs).

(** The error of what a call resolves with. *)
Definition error_of (c : Completion FlagResult) : option exn :=
  match c with
  | Return r => error r
  | Throw e => Some e
  end.

(** Imports whose toggle facade cannot be built. *)
Definition brokenFacade : Imports :=
  {| getDefinitionsCached := fun _ _ =>
       (Return 5%positive,
        {| GetDefinitions.etag := Some "etag-1";
           GetDefinitions.definitions := Some 5%positive |});
     evaluateFlags := fun _ _ => Return [featureA];
     flagsClient := fun _ => Throw (TypeError "toggles is not iterable") |}.

(** Imports whose fetch fails. *)
Definition offline : Imports :=
  {| getDefinitionsCached := fun _ c => (Throw (Error "fetch failed"), c);
     evaluateFlags := fun _ _ => Return [featureA];
     flagsClient := fun ts => Return (mockClient ts) |}.

(** A call whose fetch fails, on the caches a first call has filled, and
    one on empty caches. *)
Definition offlineWarm : Completion FlagResult * World :=
  flag offline "feature-a" (user "123") None
    (start (definitionsCaches afterFirstCall) (evaluationCaches afterFirstCall)).

Definition offlineCold : Completion FlagResult * World :=
  flag offline "feature-a" (user "123") None (start ∅ ∅).

(** Options whose [fetchOptions] has a [next] property that is
    [undefined]. *)
Definition undefinedNext : option FlagOptions :=
  Some {| evaluationCache := None; cache := None;
          fetchOptions := Some {| headers := None; next := Undefined |};
          rest := noConfig |}.

(** Options with the two caches at handles [1] and [2] and a [next]
    without [revalidate]. *)
Definition taggedOptions : option FlagOptions :=
  Some {| evaluationCache := Some 2%nat; cache := Some 1%nat;
          fetchOptions :=
            Some {| headers := None;
                    next := Defined {| revalidate := None; tags := Some ["flags"] |} |};
          rest := noConfig |}.

End FlagMore.

(** * Properties of the cache key *)

Module CacheKeyProofs.

Import GetDefinitions GetDefinitionsSpec.

Lemma append_assoc (a b c : string) : (a ++ b) ++ c = a ++ (b ++ c).
Proof. induction a as [|x a IH]; [reflexivity | exact (f_equal (String x) IH)]. Qed.

(** The reader undoes the writer, one character at a time. *)
Lemma unquote_escape_char (c : ascii) (t : string) :
  JSON.unquote (JSON.escape c ++ t) = option_map (JSON.cons_fst c) (JSON.unquote t).
Proof. destruct c as [[] [] [] [] [] [] [] []]; reflexivity. Qed.

Lemma unquote_escape (s rest : string) :
  JSON.unquote (JSON.escape_string s ++ String JSON.dquote rest) = Some (s, rest).
Proof.
  induction s as [|c s IH]; [reflexivity|].
  cbn [JSON.escape_string].
  by rewrite append_assoc, unquote_escape_char, IH.
Qed.

Lemma escape_string_inj (s s' rest rest' : string) :
  JSON.escape_string s ++ String JSON.dquote rest
  = JSON.escape_string s' ++ String JSON.dquote rest' ->
  s = s' /\ rest = rest'.
Proof.
  intros H. apply (f_equal JSON.unquote) in H.
  rewrite !unquote_escape in H. by inversion H.
Qed.

Lemma quote_app (s t : string) :
  JSON.quote s ++ t
  = String JSON.dquote (JSON.escape_string s ++ String JSON.dquote t).
Proof.
  unfold JSON.quote.
  change (String JSON.dquote ((JSON.escape_string s ++ String JSON.dquote EmptyString) ++ t)
          = String JSON.dquote (JSON.escape_string s ++ String JSON.dquote t)).
  by rewrite append_assoc.
Qed.

(** A quoted string is a prefix code: what follows it is determined. *)
Lemma quote_app_inj (s s' t t' : string) :
  JSON.quote s ++ t = JSON.quote s' ++ t' -> s = s' /\ t = t'.
Proof.
  rewrite !quote_app. intros H. injection H as H.
  by apply escape_string_inj.
Qed.

Lemma getCacheKey_inj (u u' : string) (h h' : Headers) :
  getCacheKey u h = getCacheKey u' h' -> keyFields u h = keyFields u' h'.
Proof.
  unfold getCacheKey, keyFields.
  generalize (or_empty (h !! "authorization")) (or_empty (h' !! "authorization"))
    (or_empty (h !! "unleash-instanceid")) (or_empty (h' !! "unleash-instanceid"))
    (or_empty (h !! "unleash-appname")) (or_empty (h' !! "unleash-appname")).
  intros a a' i i' n n'.
  cbn [JSON.stringify]. rewrite !append_assoc. intros H.
  do 2 apply String.app_inj in H.
  apply quote_app_inj in H as [_ H]. apply String.app_inj in H.
  apply quote_app_inj in H as [-> H]. apply String.app_inj in H.
  apply quote_app_inj in H as [_ H]. apply String.app_inj in H.
  apply quote_app_inj in H as [-> H]. apply String.app_inj in H.
  apply quote_app_inj in H as [_ H]. apply String.app_inj in H.
  apply quote_app_inj in H as [-> H]. apply String.app_inj in H.
  apply quote_app_inj in H as [_ H]. apply String.app_inj in H.
  apply quote_app_inj in H as [-> _].
  reflexivity.
Qed.

Example getCacheKey_default :
  getCacheKey "http://h/api"
    (<["authorization" := "tok"]> (<["unleash-appname" := "nextjs"]> ∅))
  = "{" ++ JSON.quote "url" ++ ":" ++ JSON.quote "http://h/api" ++ ","
        ++ JSON.quote "authorization" ++ ":" ++ JSON.quote "tok" ++ ","
        ++ JSON.quote "instanceId" ++ ":" ++ JSON.quote EmptyString ++ ","
        ++ JSON.quote "appName" ++ ":" ++ JSON.quote "nextjs" ++ "}".
Proof. vm_compute. reflexivity. Qed.

(** A quote inside the URL is escaped, so it cannot pass for the end of
    the field. *)
Example getCacheKey_escapes :
  getCacheKey (String JSON.dquote "x") ∅
  = "{" ++ JSON.quote "url" ++ ":"
        ++ String JSON.dquote (String JSON.backslash (String JSON.dquote "x"))
        ++ String JSON.dquote ","
        ++ JSON.quote "authorization" ++ ":" ++ JSON.quote EmptyString ++ ","
        ++ JSON.quote "instanceId" ++ ":" ++ JSON.quote EmptyString ++ ","
        ++ JSON.quote "appName" ++ ":" ++ JSON.quote EmptyString ++ "}".
Proof. vm_compute. reflexivity. Qed.

(** The order in which the caller lists its headers does not matter to
    the headers sent, nor then to the key, as long as no two of them share
    a lower-cased name. *)
Lemma addCallerHeaders_perm (es es' : list (string * option string)) (h : Headers) :
  es ≡ₚ es' -> NoDup (callerNames es) ->
  addCallerHeaders es h = addCallerHeaders es' h.
Proof.
  unfold addCallerHeaders. intros Hp. revert h.
  induction Hp as [|[k v] es es' Hp IH|[k1 v1] [k2 v2] es|es1 es2 es3 Hp1 IH1 Hp2 IH2];
    intros h Hnd.
  - reflexivity.
  - simpl. apply IH. unfold callerNames in Hnd. simpl in Hnd.
    destruct v; [by apply NoDup_cons in Hnd as [_ ?]|done].
  - simpl. destruct v1 as [v1|], v2 as [v2|]; try reflexivity.
    unfold callerNames in Hnd. simpl in Hnd.
    apply NoDup_cons in Hnd as [Hne _].
    unfold setHeader.
    destruct (String.eqb (toLowerCase k1) _), (String.eqb (toLowerCase k2) _);
      try reflexivity.
    rewrite insert_insert_ne; [reflexivity|].
    intros Heq. apply Hne. rewrite Heq. apply list_elem_of_here.
  - rewrite IH1 by done. apply IH2.
    unfold callerNames. by rewrite <- Hp1.
Qed.

Lemma cacheKey_caller_header_order P c (es es' : list (string * option string)) u :
  es ≡ₚ es' -> NoDup (callerNames es) ->
  getCacheKey u (mergedHeaders P (withCallerHeaders c es))
  = getCacheKey u (mergedHeaders P (withCallerHeaders c es')).
Proof.
  intros Hp Hnd. unfold mergedHeaders; simpl.
  by rewrite (addCallerHeaders_perm es es').
Qed.

Lemma or_empty_headerOrEmpty (h : Headers) name :
  or_empty (h !! name) = headerOrEmpty h name.
Proof. unfold headerOrEmpty. by destruct (h !! name) as [[|c s]|]. Qed.

Lemma keyFields_composingFields u (h : Headers) :
  keyFields u h = composingFields u h.
Proof. unfold keyFields, composingFields. by rewrite !or_empty_headerOrEmpty. Qed.

(** Callers with the same URL and application and different credentials
    have different keys. *)
Example different_credentials_different_keys :
  getCacheKey "http://h/api"
    (<["authorization" := "alice"]> (<["unleash-appname" := "nextjs"]> ∅))
  ≠ getCacheKey "http://h/api"
      (<["authorization" := "bob"]> (<["unleash-appname" := "nextjs"]> ∅)).
Proof. vm_compute. discriminate. Qed.

(** C7. The cache key is a function of the four fields of the caller's
    identity only (the endpoint URL and the values of the authorization,
    instance-id and application-name headers, an absent header counting as
    the empty string) and it is injective in them: two keys are equal
    exactly when the four fields are. Callers with the same URL and
    different credentials therefore never share an entry, and no other
    header, nor the time of the request, nor the order in which the headers
    were set, has a part in the key. *)
Theorem getCacheKey_eq_iff_composingFields (u u' : string) (h h' : Headers) :
  getCacheKey u h = getCacheKey u' h' <-> composingFields u h = composingFields u' h'.
Proof.
  rewrite <- !keyFields_composingFields.
  split; [apply getCacheKey_inj|].
  unfold keyFields, getCacheKey. intros [= -> -> -> ->]. reflexivity.
Qed.

End CacheKeyProofs.

(** * Properties of [getDefinitions] *)

Module GetDefinitionsProofs.

Import GetDefinitions GetDefinitionsSpec.

Lemma warned_cache P config s : definitionsCache (warned P config s) = definitionsCache s.
Proof.
  unfold warned, bind, when, emit, modify, ret.
  repeat case_bool_decide; reflexivity.
Qed.

(** The function, one outcome per path. *)
Lemma getDefinitions_unfold P config s :
  getDefinitions P config s =
  let s1 := warned P config s in
  match URL_toString P (url (resolve P config)) with
  | Throw e => (Throw e, s1)
  | Return u =>
      let key := cacheKeyAt P config u in
      let init := requestAt P config (definitionsCache s) u in
      let s2 := {| definitionsCache := definitionsCache s;
                   events := Fetch u init :: events s1 |} in
      match fetch P u init with
      | Throw e => (Throw e, s2)
      | Return r =>
          if status r =? 304 then
            (match (definitionsCache s !! key) ≫= definitions with
             | Some d => Return d
             | None => Throw (Error staleCacheMessage)
             end, s2)
          else
            let s3 := {| definitionsCache := definitionsCache s;
                         events := ReadJson :: events s2 |} in
            match json r with
            | Throw e => (Throw e, s3)
            | Return d =>
                (Return d,
                 {| definitionsCache :=
                      if ok r then
                        if otruthy (etag_header r)
                        then <[key := {| etag := etag_header r; definitions := Some d |}]>
                               (definitionsCache s)
                        else delete key (definitionsCache s)
                      else definitionsCache s;
                    events := events s3 |})
            end
      end
  end.
Proof.
  unfold getDefinitions, warned, requestAt, cacheKeyAt, resolve.
  set (c := mergeConfig _ _).
  unfold bind, when, emit, modify, ret, lift, cache_get, gets, throw,
    cache_set, cache_delete.
  destruct s as [cache evs]; simpl.
  repeat case_bool_decide; simpl;
    (destruct (URL_toString P (url c)) as [u|e]; [|reflexivity]);
    simpl;
    (destruct (fetch P u _) as [r|e]; [|reflexivity]);
    (destruct (status r =? 304); [destruct (_ ≫= _); reflexivity|]);
    (destruct (json r) as [d|e]; [|reflexivity]);
    destruct (ok r); try reflexivity;
    destruct (etag_header r) as [e|]; try reflexivity;
    destruct e; reflexivity.
Qed.

Ltac not_among :=
  let H := fresh in
  intros H;
  repeat (apply elem_of_cons in H as [H|H]; [discriminate H|]);
  by apply elem_of_nil in H.

Lemma warned_events P config cache :
  let evs := events (warned P config {| definitionsCache := cache; events := [] |}) in
  (ReadJson ∉ evs) /\ (forall u i, Fetch u i ∉ evs).
Proof.
  unfold warned, bind, when, emit, modify, ret; simpl.
  repeat case_bool_decide; simpl; (split; [|intros u i]); not_among.
Qed.

Lemma run_unfold P config cache :
  run P config cache =
  let s1 := warned P config {| definitionsCache := cache; events := [] |} in
  match URL_toString P (url (resolve P config)) with
  | Throw e => (Throw e, s1)
  | Return u =>
      let key := cacheKeyAt P config u in
      let init := requestAt P config cache u in
      let s2 := {| definitionsCache := cache; events := Fetch u init :: events s1 |} in
      match fetch P u init with
      | Throw e => (Throw e, s2)
      | Return r =>
          if status r =? 304 then
            (match (cache !! key) ≫= definitions with
             | Some d => Return d
             | None => Throw (Error staleCacheMessage)
             end, s2)
          else
            let s3 := {| definitionsCache := cache; events := ReadJson :: events s2 |} in
            match json r with
            | Throw e => (Throw e, s3)
            | Return d =>
                (Return d,
                 {| definitionsCache :=
                      if ok r then
                        if otruthy (etag_header r)
                        then <[key := {| etag := etag_header r; definitions := Some d |}]> cache
                        else delete key cache
                      else cache;
                    events := events s3 |})
            end
      end
  end.
Proof. unfold run. by rewrite getDefinitions_unfold. Qed.

(** The only request of a call is the one [requestAt] describes. *)
Lemma run_fetch_event P config cache u init :
  Fetch u init ∈ events (snd (run P config cache)) ->
  URL_toString P (url (resolve P config)) = Return u /\
  init = requestAt P config cache u.
Proof.
  rewrite run_unfold. cbv zeta.
  destruct (warned_events P config cache) as [_ Hw].
  destruct (URL_toString P _) as [u'|e]; simpl; [|by intros ?%Hw].
  set (W := events (warned P config _)) in *.
  set (F := Fetch u' (requestAt P config cache u')).
  assert (Hin : Fetch u init ∈ F :: W ->
            Return u' = Return u /\ init = requestAt P config cache u).
  { intros [H|H]%elem_of_cons; [|by apply Hw in H].
    unfold F in H. by injection H as -> ->. }
  assert (Hin' : Fetch u init ∈ ReadJson :: F :: W ->
            Return u' = Return u /\ init = requestAt P config cache u).
  { intros [H|H]%elem_of_cons; [discriminate H|by apply Hin]. }
  destruct (fetch P u' _) as [r|e]; simpl; [|exact Hin].
  destruct (status r =? 304); simpl; [exact Hin|].
  destruct (json r); simpl; exact Hin'.
Qed.

Lemma status_304_not_ok r : status r = 304 -> ok r = false.
Proof. unfold ok. intros ->. reflexivity. Qed.

(** The headers the function sets itself hold no conditional header. *)
Lemma ownHeaders_if_none_match P c : ownHeaders P c !! "if-none-match" = None.
Proof.
  unfold ownHeaders.
  destruct (token c) as [t|], (instanceId c) as [i|];
    repeat match goal with |- context [if ?b then _ else _] => destruct b end;
    by simplify_map_eq.
Qed.

Lemma addCallerHeaders_lookup name entries (h : Headers) acc :
  name ≠ "__proto__" ->
  h !! name = acc ->
  addCallerHeaders entries h !! name =
  fold_left
    (fun acc kv =>
       match snd kv with
       | Some value => if String.eqb (toLowerCase (fst kv)) name then Some value else acc
       | None => acc
       end)
    entries acc.
Proof.
  unfold addCallerHeaders. intros Hname.
  revert h acc. induction entries as [|[k [v|]] entries IH]; intros h acc Hh; simpl.
  - done.
  - apply IH. unfold setHeader.
    destruct (String.eqb_spec (toLowerCase k) name) as [->|Hne].
    + apply String.eqb_neq in Hname. rewrite Hname. by rewrite lookup_insert_eq.
    + destruct (String.eqb (toLowerCase k) _); [done|]. by rewrite lookup_insert_ne.
  - by apply IH.
Qed.

Lemma mergedHeaders_if_none_match P c :
  plainHeaders c ->
  mergedHeaders P c !! "if-none-match" = suppliedIfNoneMatch c.
Proof.
  unfold mergedHeaders, suppliedIfNoneMatch, plainHeaders.
  destruct (headers (fetchOptions c)) as [[props|pairs|pairs]|]; try done; intros _.
  - apply addCallerHeaders_lookup; [discriminate|apply ownHeaders_if_none_match].
  - apply ownHeaders_if_none_match.
Qed.

(** *** The 304 path *)

(** C3. A call that receives a 304 response returns the payload the cache
    holds under the computed key, the stored reference itself and without
    reading the response body, and throws the stale-cache error (the
    [Error] of line 138) when the cache holds no payload under that key.
    There is no third outcome. *)
Theorem not_modified_returns_cached_or_throws P config cache u r :
  receives P config cache u r ->
  status r = 304 ->
  match (cache !! cacheKeyAt P config u) ≫= definitions with
  | Some d =>
      fst (run P config cache) = Return d /\
      ReadJson ∉ events (snd (run P config cache))
  | None => fst (run P config cache) = Throw (Error staleCacheMessage)
  end.
Proof.
  intros [Hu Hf] Hs. rewrite run_unfold. cbv zeta.
  rewrite Hu, Hf, Hs. simpl.
  destruct (_ ≫= _) as [d|]; simpl; [|done].
  split; [done|].
  destruct (warned_events P config cache) as [Hw _].
  intros [H|H]%elem_of_cons; [discriminate H|by apply Hw in H].
Qed.

Lemma not_modified_returns_cached_or_throws_witness :
  fst (run (answering (Return notModified)) None seeded) = Return 7%positive /\
  ReadJson ∉ events (snd (run (answering (Return notModified)) None seeded)).
Proof.
  exact (not_modified_returns_cached_or_throws
           (answering (Return notModified)) None seeded
           defaultUrl notModified (conj eq_refl eq_refl) eq_refl).
Defined.

(** *** The conditional header *)

(** C5, as the code has it. For a caller that gives its headers as a
    plain object, or gives none: the request carries a header taken from
    the cache exactly when the cache holds a non-empty etag under the
    computed key and the caller supplies no non-empty [if-none-match] of
    its own; the header is then [if-none-match] with the cached etag. A
    non-empty [if-none-match] the caller supplies, under any letter-casing
    of its name, is sent as it is, whatever the cache holds. *)
Theorem conditional_header_from_cache_iff P config cache u init :
  Fetch u init ∈ events (snd (run P config cache)) ->
  plainHeaders (resolve P config) ->
  let merged := mergedHeaders P (resolve P config) in
  let supplied := suppliedIfNoneMatch (resolve P config) in
  let cached := (cache !! cacheKeyAt P config u) ≫= etag in
  merged !! "if-none-match" = supplied /\
  (init_headers init ≠ merged <-> otruthy cached = true /\ otruthy supplied = false) /\
  (otruthy cached = true -> otruthy supplied = false ->
     init_headers init !! "if-none-match" = cached /\
     init_headers init = <["if-none-match" := or_empty cached]> merged) /\
  (otruthy supplied = true ->
     init_headers init !! "if-none-match" = supplied /\ init_headers init = merged).
Proof.
  intros [_ ->]%run_fetch_event Hplain. cbv zeta.
  pose proof (mergedHeaders_if_none_match P (resolve P config) Hplain) as Hm.
  unfold requestAt, withIfNoneMatch; simpl.
  set (merged := mergedHeaders P (resolve P config)) in *.
  set (supplied := suppliedIfNoneMatch (resolve P config)) in *.
  fold (cacheKeyAt P config u).
  split; [done|].
  destruct (_ ≫= etag) as [e|]; simpl.
  - rewrite Hm. destruct (otruthy supplied) eqn:Hsup; simpl.
    + split; [split; [done | by intros [_ ?]]|]. by split.
    + destruct (truthy e) eqn:He; simpl.
      * split; [|split; [|done]].
        -- split; [done|]. intros _ Heq.
           apply (f_equal (fun m : Headers => m !! "if-none-match")) in Heq.
           rewrite lookup_insert_eq, Hm in Heq. rewrite <- Heq in Hsup.
           simpl in Hsup. congruence.
        -- intros _ _. by rewrite lookup_insert_eq.
      * split; [split; [done | by intros [? _]]|]. by split.
  - split; [split; [done | by intros [? _]]|]. by split.
Qed.

Lemma conditional_header_from_cache_iff_witness :
  init_headers
    (requestAt (answering (Return notModified))
       (withHeaders [("If-None-Match", Some "mine")]) seeded defaultUrl)
  !! "if-none-match" = Some "mine".
Proof.
  refine (proj1 (proj2 (proj2 (proj2
    (conditional_header_from_cache_iff
       (answering (Return notModified))
       (withHeaders [("If-None-Match", Some "mine")])
       seeded defaultUrl _ _ I))) eq_refl)).
  vm_compute. apply list_elem_of_here.
Defined.

(** C5, as the claim has it, fails: an [If-None-Match] the caller supplies
    with the empty string as its value is not sent unchanged; the test of
    line 125 takes it for none, and the request carries the cached etag in
    its place. *)
Lemma empty_caller_header_is_overridden :
  suppliedIfNoneMatch
    (resolve (answering (Return notModified))
       (withHeaders [("If-None-Match", Some EmptyString)]))
  = Some EmptyString /\
  Fetch defaultUrl
    (requestAt (answering (Return notModified))
       (withHeaders [("If-None-Match", Some EmptyString)]) seeded defaultUrl)
  ∈ events (snd (run (answering (Return notModified))
                   (withHeaders [("If-None-Match", Some EmptyString)]) seeded)) /\
  init_headers
    (requestAt (answering (Return notModified))
       (withHeaders [("If-None-Match", Some EmptyString)]) seeded defaultUrl)
  !! "if-none-match" = Some "etag-1".
Proof.
  split; [reflexivity|]. split.
  - vm_compute. apply list_elem_of_here.
  - vm_compute. reflexivity.
Qed.

(** The headers of a [Headers] instance are not taken over: its
    [If-None-Match] is lost, and the cached etag is sent. *)
Example headers_instance_is_dropped :
  suppliedIfNoneMatch
    (resolve (answering (Return notModified))
       (withHeadersInstance [("If-None-Match", "mine")])) = Some "mine" /\
  init_headers
    (requestAt (answering (Return notModified))
       (withHeadersInstance [("If-None-Match", "mine")]) seeded defaultUrl)
  !! "if-none-match" = Some "etag-1".
Proof. split; vm_compute; reflexivity. Qed.

(** *** Successful responses *)

(** C4, as the code has it. After a call that receives a 2xx response
    and parses its body: when the response carries a non-empty ETag, the
    cache holds at the computed key the entry made of that ETag and the
    parsed payload, whatever it held before; when it carries no ETag, or
    an empty one, the cache holds no entry at that key, and in a following
    call with the same key the cache adds no conditional header: the
    request carries the headers as they were before the cache was
    consulted, so its [if-none-match] is the one of the caller's plain
    headers object, absent when the caller supplies none. *)
Theorem ok_response_stores_or_evicts P config cache u r d :
  receives P config cache u r ->
  ok r = true ->
  json r = Return d ->
  let key := cacheKeyAt P config u in
  let cache' := definitionsCache (snd (run P config cache)) in
  (forall e, etag_header r = Some e -> truthy e = true ->
     cache' !! key = Some {| etag := Some e; definitions := Some d |}) /\
  (otruthy (etag_header r) = false ->
     cache' !! key = None /\
     forall P2 config2 u2 init2,
       Fetch u2 init2 ∈ events (snd (run P2 config2 cache')) ->
       cacheKeyAt P2 config2 u2 = key ->
       init_headers init2 = mergedHeaders P2 (resolve P2 config2) /\
       (plainHeaders (resolve P2 config2) ->
        init_headers init2 !! "if-none-match"
        = suppliedIfNoneMatch (resolve P2 config2))).
Proof.
  intros [Hu Hf] Hok Hj. cbv zeta. rewrite run_unfold. cbv zeta.
  rewrite Hu, Hf. simpl.
  assert (Hs : (status r =? 304) = false).
  { destruct (status r =? 304) eqn:E; [|done].
    apply Z.eqb_eq, status_304_not_ok in E. congruence. }
  rewrite Hs, Hj, Hok. simpl. split.
  - intros e He Ht. rewrite He. simpl. rewrite Ht. by rewrite lookup_insert_eq.
  - intros Hn. rewrite Hn. split; [apply lookup_delete_eq|].
    intros P2 config2 u2 init2 [_ ->]%run_fetch_event Hk.
    unfold requestAt; simpl. rewrite Hk, lookup_delete_eq. simpl.
    split; [done|]. apply mergedHeaders_if_none_match.
Qed.

Lemma ok_response_stores_or_evicts_witness :
  definitionsCache (snd (run (answering (Return (okWithEtag 9%positive))) None seeded))
  !! defaultKey
  = Some (entry "etag-2" 9%positive).
Proof.
  exact (proj1
    (ok_response_stores_or_evicts
       (answering (Return (okWithEtag 9%positive))) None seeded
       defaultUrl (okWithEtag 9%positive) 9%positive
       (conj eq_refl eq_refl) eq_refl eq_refl)
    "etag-2" eq_refl eq_refl).
Defined.

(** C4, as the claim has it, fails twice. A 2xx response whose ETag header
    is there and empty does not store an entry, it evicts the one of the
    key (the test of line 147); and after a response without ETag has
    evicted the entry, a following call for the same key whose caller
    supplies [If-None-Match] sends that conditional header. *)
Lemma empty_etag_evicts_and_caller_header_is_sent :
  (etag_header (okEmptyEtag 9%positive) = Some EmptyString /\
   ok (okEmptyEtag 9%positive) = true /\
   seeded !! defaultKey = Some (entry "etag-1" 7%positive) /\
   definitionsCache
     (snd (run (answering (Return (okEmptyEtag 9%positive))) None seeded))
   !! defaultKey = None) /\
  (evicted !! defaultKey = None /\
   cacheKeyAt (answering (Return notModified))
     (withHeaders [("If-None-Match", Some "mine")]) defaultUrl = defaultKey /\
   Fetch defaultUrl
     (requestAt (answering (Return notModified))
        (withHeaders [("If-None-Match", Some "mine")]) evicted defaultUrl)
   ∈ events (snd (run (answering (Return notModified))
                    (withHeaders [("If-None-Match", Some "mine")]) evicted)) /\
   init_headers
     (requestAt (answering (Return notModified))
        (withHeaders [("If-None-Match", Some "mine")]) evicted defaultUrl)
   !! "if-none-match" = Some "mine").
Proof.
  split.
  - repeat split; vm_compute; reflexivity.
  - split; [vm_compute; reflexivity|]. split; [vm_compute; reflexivity|]. split.
    + vm_compute. apply list_elem_of_here.
    + vm_compute. reflexivity.
Qed.

(** *** Responses that are not successes *)

(** C6. A call that receives a response whose status is neither 2xx nor
    304 returns the parsed body and leaves the cache as it was; a call that
    receives a 304 leaves the cache as it was too, whatever ETag the 304
    carries. *)
Theorem cache_untouched_without_success P config cache u r :
  receives P config cache u r ->
  (status r = 304 -> definitionsCache (snd (run P config cache)) = cache) /\
  ((status r ≠ 304) -> ok r = false ->
     definitionsCache (snd (run P config cache)) = cache /\
     forall d, json r = Return d -> fst (run P config cache) = Return d).
Proof.
  intros [Hu Hf]. rewrite run_unfold. cbv zeta. rewrite Hu, Hf. simpl. split.
  - intros ->. simpl. done.
  - intros Hs Hok. apply Z.eqb_neq in Hs. rewrite Hs, Hok.
    destruct (json r) as [d|e]; simpl; (split; [done|]); intros d' Hd.
    + by injection Hd as ->.
    + discriminate Hd.
Qed.

Lemma cache_untouched_without_success_witness :
  definitionsCache (snd (run (answering (Return (serverError 9%positive))) None seeded))
  = seeded /\
  fst (run (answering (Return (serverError 9%positive))) None seeded)
  = Return 9%positive.
Proof.
  pose proof (proj2
    (cache_untouched_without_success
       (answering (Return (serverError 9%positive))) None seeded
       defaultUrl (serverError 9%positive) (conj eq_refl eq_refl))) as H.
  destruct H as [Hc Hr]; [discriminate | reflexivity |].
  split; [exact Hc | exact (Hr _ eq_refl)].
Defined.

(** C10. When a call receives a response with a status other than 304 and
    reading its body as JSON fails, the error is thrown on and the cache is
    as it was before the call: the body is read before any write to the
    cache, so nothing was stored or deleted. *)
Theorem parse_failure_leaves_cache P config cache u r e :
  receives P config cache u r ->
  status r ≠ 304 ->
  json r = Throw e ->
  fst (run P config cache) = Throw e /\
  definitionsCache (snd (run P config cache)) = cache /\
  ReadJson ∈ events (snd (run P config cache)).
Proof.
  intros [Hu Hf] Hs Hj. rewrite run_unfold. cbv zeta. rewrite Hu, Hf. simpl.
  apply Z.eqb_neq in Hs. rewrite Hs, Hj. simpl.
  repeat split. apply elem_of_cons. by left.
Qed.

Lemma parse_failure_leaves_cache_witness :
  fst (run (answering (Return okUnreadable)) None seeded)
  = Throw (SyntaxError "Unexpected token < in JSON at position 0") /\
  definitionsCache (snd (run (answering (Return okUnreadable)) None seeded)) = seeded /\
  ReadJson ∈ events (snd (run (answering (Return okUnreadable)) None seeded)).
Proof.
  apply (parse_failure_leaves_cache
           (answering (Return okUnreadable)) None seeded
           defaultUrl okUnreadable
           (SyntaxError "Unexpected token < in JSON at position 0")
           (conj eq_refl eq_refl)); [discriminate | reflexivity].
Defined.

(** *** The scenarios of the tests *)

(** The second of two calls sends the ETag of the first response. *)
Example reuses_etag_on_subsequent_requests :
  let first :=
    run (answering (Return {| status := 200; etag_header := Some "etag-1";
                              json := Return 7%positive |})) None ∅ in
  init_headers
    (requestAt (answering (Return (okWithEtag 9%positive))) None
       (definitionsCache (snd first)) defaultUrl)
  !! "if-none-match" = Some "etag-1".
Proof. vm_compute. reflexivity. Qed.

Example throws_on_304_without_cache :
  fst (run (answering (Return notModified)) None ∅) = Throw (Error staleCacheMessage).
Proof. vm_compute. reflexivity. Qed.

(** The default configuration logs both console messages before the
    request. *)
Example warns_about_default_config :
  exists init,
    events (snd (run (answering (Return notModified)) None seeded))
    = [Fetch defaultUrl init; ConsoleError; ConsoleWarn].
Proof. eexists. vm_compute. reflexivity. Qed.

(** An empty [if-none-match] of the caller counts as none: the cached etag
    takes its place. *)
Example empty_caller_header_counts_as_none :
  init_headers
    (requestAt (answering (Return notModified))
       (withHeaders [("If-None-Match", Some EmptyString)]) seeded defaultUrl)
  !! "if-none-match" = Some "etag-1".
Proof. vm_compute. reflexivity. Qed.

End GetDefinitionsProofs.
(** * Properties of [flag] *)

Module FlagProofs.

Import GetDefinitions Flag FlagSpec.

Lemma flag_try_catch I n ctx o :
  flag I n ctx o = try_catch (tryOf I n ctx o) (fun e => ret (failure e)).
Proof. reflexivity. Qed.

(** The world after the [else] branch, when the evaluator returns. *)
Lemma evaluateAndStore_unfold I ecH dcH d ctx key (w : World) :
  evaluateAndStore I ecH dcH d ctx key w =
  let w1 := {| definitionsCaches := definitionsCaches w;
               evaluationCaches := evaluationCaches w;
               calls := CallEvaluateFlags d ctx :: calls w |} in
  match evaluateFlags I d ctx with
  | Throw e => (Throw e, w1)
  | Return ts =>
      (Return ts,
       {| definitionsCaches := definitionsCaches w;
          evaluationCaches :=
            <[ecH := {| EvaluationCache.etag :=
                          GetDefinitions.etag (definitionsCaches w !!! dcH);
                        EvaluationCache.definitions :=
                          Some (nullish (GetDefinitions.definitions
                                           (definitionsCaches w !!! dcH)) d);
                        EvaluationCache.contextKey := Some key;
                        EvaluationCache.toggles := Some ts |}]>
              (evaluationCaches w);
          calls := CallEvaluateFlags d ctx :: calls w |})
  end.
Proof.
  unfold evaluateAndStore, callEvaluateFlags, bind, record, modify, lift, assign,
    readDefinitionsCache, gets, ret.
  destruct w as [dcs ecs cs]; simpl.
  destruct (evaluateFlags I d ctx) as [ts|e]; [|reflexivity].
  simpl. rewrite !lookup_total_insert_eq, !insert_insert_eq. reflexivity.
Qed.

(** The function, one outcome per path. *)
Lemma flag_unfold I n ctx o (w : World) :
  flag I n ctx o w =
  let dcs := definitionsCaches w in
  let ecs := evaluationCaches w in
  let dcH := definitionsHandle o in
  let ecH := evaluationHandle o in
  let opts := definitionsOptions o in
  let dc := snd (fetched I o dcs) in
  let dcs' := <[dcH := dc]> dcs in
  match fst (fetched I o dcs) with
  | Throw e =>
      (Return (failure e),
       {| definitionsCaches := dcs'; evaluationCaches := ecs;
          calls := CallGetDefinitionsCached opts :: calls w |})
  | Return d =>
      let ec := ecs !!! ecH in
      let key := contextKeyOf ctx in
      if reusable ec dc key then
        let ts := default [] (EvaluationCache.toggles ec) in
        (Return (caught (answer I n ts)),
         {| definitionsCaches := dcs'; evaluationCaches := ecs;
            calls := CallFlagsClient ts :: CallGetDefinitionsCached opts :: calls w |})
      else
        match evaluateFlags I d (default [] ctx) with
        | Throw e =>
            (Return (failure e),
             {| definitionsCaches := dcs'; evaluationCaches := ecs;
                calls := CallEvaluateFlags d (default [] ctx)
                           :: CallGetDefinitionsCached opts :: calls w |})
        | Return ts =>
            (Return (caught (answer I n ts)),
             {| definitionsCaches := dcs';
                evaluationCaches :=
                  <[ecH := {| EvaluationCache.etag := GetDefinitions.etag dc;
                              EvaluationCache.definitions :=
                                Some (nullish (GetDefinitions.definitions dc) d);
                              EvaluationCache.contextKey := Some key;
                              EvaluationCache.toggles := Some ts |}]> ecs;
                calls := CallFlagsClient ts
                           :: CallEvaluateFlags d (default [] ctx)
                           :: CallGetDefinitionsCached opts :: calls w |})
        end
  end.
Proof.
  rewrite flag_try_catch. cbv zeta.
  destruct w as [dcs ecs cs].
  unfold tryOf, flagTry, try_catch, fetched, reusable, contextKeyOf.
  unfold callGetDefinitionsCached.
  unfold bind at 1 2. unfold record at 1. unfold modify at 1. simpl.
  fold (definitionsOptions o).
  destruct (getDefinitionsCached I (definitionsOptions o) _) as [[d|e] dc]; simpl;
    [|reflexivity].
  unfold bind at 1. unfold readEvaluationCache, gets at 1. simpl.
  unfold bind at 1. unfold readDefinitionsCache, gets at 1. simpl.
  rewrite lookup_total_insert_eq.
  set (ec := ecs !!! evaluationHandle o).
  set (key := serializeContext (default [] ctx)).
  set (w1 := {| definitionsCaches := _; evaluationCaches := ecs; calls := _ |}).
  assert (Hfinish : forall ts (w : World),
    (let* client := callFlagsClient I ts in
     let* enabled := lift (isEnabled client n) in
     let* variant := lift (getVariant client n) in
     ret {| enabled := enabled; variant := variant; error := None |}) w
    = (answer I n ts,
       {| definitionsCaches := definitionsCaches w;
          evaluationCaches := evaluationCaches w;
          calls := CallFlagsClient ts :: calls w |})).
  { intros ts w. unfold callFlagsClient, bind, record, modify, lift, ret, answer.
    simpl. destruct (flagsClient I ts) as [cl|e]; [|reflexivity].
    destruct (isEnabled cl n); [|reflexivity].
    destruct (getVariant cl n); reflexivity. }
  assert (Hmiss :
    (let* toggles := evaluateAndStore I (evaluationHandle o) (definitionsHandle o)
                       d (default [] ctx) key in
     let* client := callFlagsClient I toggles in
     let* enabled := lift (isEnabled client n) in
     let* variant := lift (getVariant client n) in
     ret {| enabled := enabled; variant := variant; error := None |}) w1
    = match evaluateFlags I d (default [] ctx) with
      | Throw e =>
          (Throw e,
           {| definitionsCaches := definitionsCaches w1; evaluationCaches := ecs;
              calls := CallEvaluateFlags d (default [] ctx) :: calls w1 |})
      | Return ts =>
          (answer I n ts,
           {| definitionsCaches := definitionsCaches w1;
              evaluationCaches :=
                <[evaluationHandle o :=
                    {| EvaluationCache.etag := GetDefinitions.etag dc;
                       EvaluationCache.definitions :=
                         Some (nullish (GetDefinitions.definitions dc) d);
                       EvaluationCache.contextKey := Some key;
                       EvaluationCache.toggles := Some ts |}]> ecs;
              calls := CallFlagsClient ts
                         :: CallEvaluateFlags d (default [] ctx) :: calls w1 |})
      end).
  { unfold bind at 1. rewrite evaluateAndStore_unfold. cbv zeta.
    destruct (evaluateFlags I d (default [] ctx)) as [ts|e]; [|reflexivity].
    rewrite Hfinish. simpl. unfold w1; simpl.
    by rewrite lookup_total_insert_eq. }
  destruct (EvaluationCache.toggles ec) as [stored|] eqn:Hts; simpl.
  - destruct (strict_eq _ _ && _) eqn:Hc.
    + unfold bind at 1. unfold ret at 1. rewrite Hfinish. simpl.
      destruct (answer I n stored); reflexivity.
    + rewrite Hmiss.
      destruct (evaluateFlags I d (default [] ctx)) as [ts|e]; [|reflexivity].
      destruct (answer I n ts); reflexivity.
  - rewrite Hmiss.
    destruct (evaluateFlags I d (default [] ctx)) as [ts|e]; [|reflexivity].
    destruct (answer I n ts); reflexivity.
Qed.

(** *** The reuse decision *)

Lemma otruthy_nonEmpty (o : option string) : otruthy o = true <-> nonEmpty o.
Proof.
  unfold nonEmpty. destruct o as [[|c s]|]; simpl.
  - split; [discriminate|]. intros (s' & Heq & Hs). by injection Heq as <-.
  - split; [|done]. intros _. by exists (String c s).
  - split; [discriminate|]. by intros (s' & Heq & _).
Qed.

(** The condition the code computes is the one the specification words. *)
Lemma reusable_permitted ec dc key :
  reusable ec dc key = true <-> reusePermitted ec dc key.
Proof.
  unfold reusable, reusePermitted, freshness, strict_eq.
  rewrite <- !otruthy_nonEmpty.
  destruct (EvaluationCache.toggles ec) as [ts|].
  - assert (Hs : is_Some (Some ts)) by (by exists ts).
    rewrite andb_true_iff, bool_decide_eq_true.
    destruct (otruthy (EvaluationCache.etag ec)), (otruthy (GetDefinitions.etag dc));
      simpl; rewrite bool_decide_eq_true;
      intuition (try congruence; try discriminate).
  - split; [discriminate|]. intros [[x Hx] _]. discriminate Hx.
Qed.

(** C1, as the code has it. In a call whose definitions fetch returns, the
    stored toggle list
    is reused, the evaluator not being called, exactly when the evaluation
    cache holds a toggle list, its context key is the serialization of the
    caller's context, and the freshness signal says unchanged: equal etags
    when the evaluation cache and the definitions cache both carry a
    non-empty etag, and otherwise the stored definitions being the very
    definitions the definitions cache now holds. *)
Theorem reuse_iff_permitted I n ctx o dcs ecs d :
  fst (fetched I o dcs) = Return d ->
  let out := flag I n ctx o (start dcs ecs) in
  let ec := ecs !!! evaluationHandle o in
  let dc := definitionsCaches (snd out) !!! definitionsHandle o in
  (reused ec (calls (snd out)) <-> reusePermitted ec dc (contextKeyOf ctx)) /\
  (~ evaluatorInvoked (calls (snd out)) <-> reusePermitted ec dc (contextKeyOf ctx)).
Proof.
  intros Hf. cbv zeta. rewrite flag_unfold.
  unfold start; cbn [definitionsCaches evaluationCaches calls]; cbv zeta.
  rewrite Hf. simpl.
  set (dc := snd (fetched I o dcs)).
  set (ec := ecs !!! evaluationHandle o).
  assert (Hdc : forall (w : World),
            definitionsCaches w = <[definitionsHandle o := dc]> dcs ->
            definitionsCaches w !!! definitionsHandle o = dc).
  { intros w ->. apply lookup_total_insert_eq. }
  rewrite <- reusable_permitted.
  destruct (reusable ec dc (contextKeyOf ctx)) eqn:Hr.
  - rewrite Hdc by done. rewrite Hr. simpl.
    assert (Hno : ~ evaluatorInvoked
              [CallFlagsClient (default [] (EvaluationCache.toggles ec));
               CallGetDefinitionsCached (definitionsOptions o)]).
    { intros (d' & c' & H). repeat (apply elem_of_cons in H as [H|H]; [discriminate H|]).
      by apply elem_of_nil in H. }
    split; split; try done. intros _. split; [|done].
    unfold reusable in Hr. destruct (EvaluationCache.toggles ec) as [stored|]; [|done].
    exists stored. split; [done|]. simpl. apply list_elem_of_here.
  - destruct (evaluateFlags I d (default [] ctx)) as [ts|e]; simpl;
      rewrite lookup_total_insert_eq; fold dc; rewrite Hr.
    + assert (Hyes : evaluatorInvoked
                [CallFlagsClient ts; CallEvaluateFlags d (default [] ctx);
                 CallGetDefinitionsCached (definitionsOptions o)]).
      { exists d, (default [] ctx). apply list_elem_of_further, list_elem_of_here. }
      split; split; try discriminate; [intros [_ H]|intros H]; by destruct H.
    + assert (Hyes : evaluatorInvoked
                [CallEvaluateFlags d (default [] ctx);
                 CallGetDefinitionsCached (definitionsOptions o)]).
      { exists d, (default [] ctx). apply list_elem_of_here. }
      split; split; try discriminate; [intros [_ H]|intros H]; by destruct H.
Qed.

Lemma reuse_iff_permitted_witness :
  reused (evaluationCaches afterFirstCall !!! 0%nat)
    (calls (snd (flag (mockImports (Some "etag-1") 5%positive) "feature-a"
                   (user "123") None
                   (start (definitionsCaches afterFirstCall)
                      (evaluationCaches afterFirstCall))))).
Proof.
  apply (proj1 (reuse_iff_permitted (mockImports (Some "etag-1") 5%positive)
                  "feature-a" (user "123") None
                  (definitionsCaches afterFirstCall)
                  (evaluationCaches afterFirstCall) 5%positive eq_refl)).
  apply reusable_permitted. vm_compute. reflexivity.
Defined.

(** C1, as the claim has it, fails when the definitions fetch throws: the
    reuse decision is then never reached. On caches that a first call has
    filled the three conditions hold, yet the stored toggle list is not
    reused (nothing reaches the toggle facade); on empty caches the
    conditions fail, yet the evaluator is not invoked. *)
Lemma reuse_not_decided_when_fetch_throws :
  (reusePermitted (evaluationCaches afterFirstCall !!! 0%nat)
     (definitionsCaches (snd FlagMore.offlineWarm) !!! 0%nat)
     (contextKeyOf (user "123")) /\
   ~ reused (evaluationCaches afterFirstCall !!! 0%nat)
       (calls (snd FlagMore.offlineWarm))) /\
  (~ reusePermitted (createEvaluationCache None)
       (definitionsCaches (snd FlagMore.offlineCold) !!! 0%nat)
       (contextKeyOf (user "123")) /\
   ~ evaluatorInvoked (calls (snd FlagMore.offlineCold))).
Proof.
  split; split.
  - apply reusable_permitted. vm_compute. reflexivity.
  - intros [(stored & _ & H) _]. vm_compute in H.
    apply elem_of_cons in H as [H|H]; [discriminate H|].
    by apply elem_of_nil in H.
  - intros H%reusable_permitted. vm_compute in H. discriminate H.
  - intros (d & c & H). vm_compute in H.
    apply elem_of_cons in H as [H|H]; [discriminate H|].
    by apply elem_of_nil in H.
Qed.

(** *** Writes to the evaluation cache *)

(** C9. In a call in which reuse is permitted, nothing is written to the
    evaluation cache: its four fields, as those of every other evaluation
    cache, are after the call what they were before it. *)
Theorem hit_writes_nothing I n ctx o dcs ecs d :
  fst (fetched I o dcs) = Return d ->
  let out := flag I n ctx o (start dcs ecs) in
  reusePermitted (ecs !!! evaluationHandle o)
    (definitionsCaches (snd out) !!! definitionsHandle o) (contextKeyOf ctx) ->
  evaluationCaches (snd out) = ecs.
Proof.
  intros Hf. cbv zeta. rewrite flag_unfold.
  unfold start; cbn [definitionsCaches evaluationCaches calls]; cbv zeta.
  rewrite Hf. simpl. rewrite <- reusable_permitted.
  destruct (reusable _ (snd (fetched I o dcs)) _) eqn:Hr; [done|].
  destruct (evaluateFlags I d (default [] ctx)) as [ts|e]; simpl;
    rewrite lookup_total_insert_eq, Hr; discriminate.
Qed.

Lemma hit_writes_nothing_witness :
  evaluationCaches
    (snd (flag (mockImports (Some "etag-1") 5%positive) "feature-a" (user "123") None
            (start (definitionsCaches afterFirstCall)
               (evaluationCaches afterFirstCall))))
  = evaluationCaches afterFirstCall.
Proof.
  apply (hit_writes_nothing (mockImports (Some "etag-1") 5%positive)
           "feature-a" (user "123") None
           (definitionsCaches afterFirstCall)
           (evaluationCaches afterFirstCall) 5%positive eq_refl).
  apply reusable_permitted. vm_compute. reflexivity.
Defined.

(** C8, as the code has it. In a call in which reuse is not permitted and
    the evaluator returns a toggle list, the evaluation cache is written in
    full: afterwards its toggles are the new list, its context key the new
    serialization, its etag the etag of the definitions cache, and its
    definitions those of the definitions cache when it holds any and the
    fetched definitions otherwise. When the evaluator throws, no evaluation
    cache is written at all. The cache is never left with some fields
    written and others not. *)
Theorem miss_overwrites_in_full I n ctx o dcs ecs d :
  fst (fetched I o dcs) = Return d ->
  let out := flag I n ctx o (start dcs ecs) in
  let dc := definitionsCaches (snd out) !!! definitionsHandle o in
  ~ reusePermitted (ecs !!! evaluationHandle o) dc (contextKeyOf ctx) ->
  (forall ts, evaluateFlags I d (default [] ctx) = Return ts ->
     evaluationCaches (snd out) !!! evaluationHandle o =
     {| EvaluationCache.etag := GetDefinitions.etag dc;
        EvaluationCache.definitions :=
          Some (nullish (GetDefinitions.definitions dc) d);
        EvaluationCache.contextKey := Some (contextKeyOf ctx);
        EvaluationCache.toggles := Some ts |}) /\
  (forall e, evaluateFlags I d (default [] ctx) = Throw e ->
     evaluationCaches (snd out) = ecs).
Proof.
  intros Hf. cbv zeta. rewrite flag_unfold.
  unfold start; cbn [definitionsCaches evaluationCaches calls]; cbv zeta.
  rewrite Hf. simpl. rewrite <- reusable_permitted.
  destruct (reusable _ (snd (fetched I o dcs)) _) eqn:Hr.
  - simpl. rewrite lookup_total_insert_eq, Hr. by intros [].
  - intros _.
    destruct (evaluateFlags I d (default [] ctx)) as [ts|e]; simpl; split.
    + intros ? [= <-]. by rewrite !lookup_total_insert_eq.
    + discriminate.
    + discriminate.
    + done.
Qed.

Lemma miss_overwrites_in_full_witness :
  evaluationCaches afterFirstCall !!! 0%nat =
  {| EvaluationCache.etag := Some "etag-1";
     EvaluationCache.definitions := Some 5%positive;
     EvaluationCache.contextKey := Some (contextKeyOf (user "123"));
     EvaluationCache.toggles := Some [featureA] |}.
Proof.
  refine (proj1 (miss_overwrites_in_full (mockImports (Some "etag-1") 5%positive)
                   "feature-a" (user "123") None ∅ ∅ 5%positive eq_refl _)
            [featureA] eq_refl).
  intros H%reusable_permitted. vm_compute in H. discriminate H.
Defined.

(** C8, as the claim has it, fails: when the definitions cache holds no
    definitions after the fetch (here the fetch returns the definitions
    [5] and stores nothing), a miss stores the fetched definitions in the
    evaluation cache, which are not the definitions of the definitions
    cache. *)
Lemma miss_definitions_not_those_of_cache :
  ~ reusePermitted (createEvaluationCache None)
      (definitionsCaches (snd uncachedCall) !!! 0%nat) (contextKeyOf (user "123")) /\
  EvaluationCache.definitions (evaluationCaches (snd uncachedCall) !!! 0%nat)
  = Some 5%positive /\
  GetDefinitions.definitions (definitionsCaches (snd uncachedCall) !!! 0%nat) = None /\
  EvaluationCache.definitions (evaluationCaches (snd uncachedCall) !!! 0%nat)
  ≠ GetDefinitions.definitions (definitionsCaches (snd uncachedCall) !!! 0%nat).
Proof.
  split; [|split; [|split]].
  - intros H%reusable_permitted. vm_compute in H. discriminate H.
  - vm_compute. reflexivity.
  - vm_compute. reflexivity.
  - vm_compute. discriminate.
Qed.

(** *** The scenarios of the tests *)

Example reuses_for_identical_context_and_definitions :
  let I := mockImports (Some "etag-1") 5%positive in
  evaluations (calls (twoCalls I I (user "123") (user "123"))) = 1%nat.
Proof. vm_compute. reflexivity. Qed.

Example reevaluates_when_context_changes :
  let I := mockImports (Some "etag-1") 5%positive in
  evaluations (calls (twoCalls I I (user "123") (user "456"))) = 2%nat.
Proof. vm_compute. reflexivity. Qed.

Example reevaluates_when_definitions_change :
  evaluations
    (calls (twoCalls (mockImports (Some "etag-1") 5%positive)
              (mockImports (Some "etag-2") 6%positive) (user "123") (user "123")))
  = 2%nat.
Proof. vm_compute. reflexivity. Qed.

Example reuses_without_etag_when_reference_is_identical :
  let I := mockImports None 5%positive in
  evaluations (calls (twoCalls I I (user "123") (user "123"))) = 1%nat.
Proof. vm_compute. reflexivity. Qed.

Example reevaluates_without_etag_when_reference_differs :
  evaluations
    (calls (twoCalls (mockImports None 5%positive) (mockImports None 6%positive)
              (user "123") (user "123")))
  = 2%nat.
Proof. vm_compute. reflexivity. Qed.

(** The serialization depends on the order of the properties. *)
Example serializeContext_order_sensitive :
  serializeContext [("userId", Some (JSON.Str "1")); ("sessionId", Some (JSON.Str "2"))]
  ≠ serializeContext [("sessionId", Some (JSON.Str "2")); ("userId", Some (JSON.Str "1"))].
Proof. vm_compute. discriminate. Qed.

Example flag_enabled_with_mocks :
  fst (flag (mockImports (Some "etag-1") 5%positive) "feature-a" (user "123") None
         (start ∅ ∅))
  = Return {| enabled := true; variant := toggle_variant featureA; error := None |}.
Proof. vm_compute. reflexivity. Qed.

(** *** Errors *)

Lemma bind_return {S A B : Type} (m : M S A) (k : A -> M S B) (s s' : S) (b : B) :
  bind m k s = (Return b, s') ->
  exists a s1, m s = (Return a, s1) /\ k a s1 = (Return b, s').
Proof.
  unfold bind. destruct (m s) as [[a|e] s1]; [|discriminate].
  intros H. by exists a, s1.
Qed.

(** What the [try] block returns carries no error. *)
Lemma tryOf_return_no_error I n ctx o w r w' :
  tryOf I n ctx o w = (Return r, w') -> error r = None.
Proof.
  unfold tryOf, flagTry. intros H.
  repeat (apply bind_return in H as (? & ? & _ & H)).
  unfold ret in H. by injection H as <- _.
Qed.

(** The steps one by one: the result of a call is the failure result of
    the error of the first step that throws, and otherwise what the toggle
    facade answers. *)
Lemma flag_result_by_step I n ctx o w :
  fst (flag I n ctx o w) =
  Return
    (match fst (fetched I o (definitionsCaches w)) with
     | Throw e => failure e
     | Return d =>
         let ec := evaluationCaches w !!! evaluationHandle o in
         if reusable ec (snd (fetched I o (definitionsCaches w))) (contextKeyOf ctx)
         then caught (answer I n (default [] (EvaluationCache.toggles ec)))
         else
           match evaluateFlags I d (default [] ctx) with
           | Throw e => failure e
           | Return ts => caught (answer I n ts)
           end
     end).
Proof.
  rewrite flag_unfold. cbv zeta.
  destruct (fst (fetched I o _)) as [d|e]; [|done].
  destruct (reusable _ _ _); [done|].
  by destruct (evaluateFlags I d _).
Qed.

(** C2. The per-flag operation never throws, whatever the name, the
    context, the options and the state, and however the definitions fetch,
    the evaluator and the toggle facade behave. When a step of the [try]
    block throws, it returns the result with [enabled] false, the empty
    variant and the error thrown; otherwise it returns the result of the
    block, with the facade's [enabled] and [variant] and no error. Step by
    step: the error is that of the fetch when the fetch throws, else that
    of the evaluator when the cache is missed and the evaluator throws,
    else that of the facade when it throws. *)
Theorem flag_never_throws I n ctx o w :
  exists r,
    fst (flag I n ctx o w) = Return r /\
    match fst (tryOf I n ctx o w) with
    | Throw e => r = {| enabled := false; variant := []; error := Some e |}
    | Return r' => r = r' /\ error r = None
    end /\
    r = match fst (fetched I o (definitionsCaches w)) with
        | Throw e => failure e
        | Return d =>
            let ec := evaluationCaches w !!! evaluationHandle o in
            if reusable ec (snd (fetched I o (definitionsCaches w))) (contextKeyOf ctx)
            then caught (answer I n (default [] (EvaluationCache.toggles ec)))
            else
              match evaluateFlags I d (default [] ctx) with
              | Throw e => failure e
              | Return ts => caught (answer I n ts)
              end
        end.
Proof.
  pose proof (flag_result_by_step I n ctx o w) as Hstep.
  rewrite flag_try_catch in *. unfold try_catch in *.
  destruct (tryOf I n ctx o w) as [[r|e] w'] eqn:Ht; simpl in *.
  - exists r. split; [done|]. split.
    + split; [done|]. by apply tryOf_return_no_error in Ht.
    + by injection Hstep.
  - exists (failure e). split; [done|]. split; [done|]. by injection Hstep.
Qed.

Example flag_fetch_throws :
  fst (flag {| getDefinitionsCached := fun _ c => (Throw (Error staleCacheMessage), c);
               evaluateFlags := fun _ _ => Return [featureA];
               flagsClient := fun ts => Return (mockClient ts) |}
         "feature-a" (user "123") None (start ∅ ∅))
  = Return {| enabled := false; variant := [];
              error := Some (Error staleCacheMessage) |}.
Proof. vm_compute. reflexivity. Qed.

Example flag_evaluator_throws :
  fst (flag {| getDefinitionsCached := fun _ c => (Return 5%positive, c);
               evaluateFlags := fun _ _ => Throw (TypeError "bad definitions");
               flagsClient := fun ts => Return (mockClient ts) |}
         "feature-a" (user "123") None (start ∅ ∅))
  = Return {| enabled := false; variant := [];
              error := Some (TypeError "bad definitions") |}.
Proof. vm_compute. reflexivity. Qed.

End FlagProofs.
(** * Further properties of [getDefinitions.ts] *)

Module GetDefinitionsMoreProofs.

Import GetDefinitions GetDefinitionsSpec GetDefinitionsMore GetDefinitionsProofs.

(** *** The default configuration *)

(** X1. Whatever the environment, the default configuration carries a
    credential, a token or an instance id, and one that is there is never
    the empty string. The token is that of the environment when it gives a
    non-empty one; else it is the fallback token, and then there is no
    instance id; else there is no token, and then there is an instance
    id. *)
Theorem getDefaultConfig_has_credential P defaultAppName :
  let c := getDefaultConfig P defaultAppName in
  (otruthy (token c) = true \/ otruthy (instanceId c) = true) /\
  (token c = None \/ otruthy (token c) = true) /\
  (instanceId c = None \/ otruthy (instanceId c) = true) /\
  ((otruthy (UNLEASH_SERVER_API_TOKEN (env P)) = true /\
    token c = UNLEASH_SERVER_API_TOKEN (env P)) \/
   (token c = Some defaultToken /\ instanceId c = None) \/
   (token c = None /\ otruthy (instanceId c) = true)).
Proof.
  unfold getDefaultConfig; simpl.
  destruct (otruthy (UNLEASH_SERVER_API_TOKEN (env P))) eqn:Ht;
    destruct (otruthy (UNLEASH_SERVER_INSTANCE_ID (env P))) eqn:Hi;
    simpl; rewrite ?Ht, ?Hi; simpl; repeat split; auto.
Qed.

Example default_config_with_instance_id_has_no_token :
  token (getDefaultConfig (withEnv (answering (Throw (Error "offline"))) instanceEnv)
           "nextjs") = None.
Proof. reflexivity. Qed.

(** *** The headers of a request *)

Lemma lower_ascii_idem (c : ascii) : lower_ascii (lower_ascii c) = lower_ascii c.
Proof. destruct c as [[] [] [] [] [] [] [] []]; reflexivity. Qed.

Lemma toLowerCase_idem (s : string) : toLowerCase (toLowerCase s) = toLowerCase s.
Proof.
  induction s as [|c s IH]; [reflexivity|].
  simpl. by rewrite lower_ascii_idem, IH.
Qed.

Lemma lowerCased_empty : lowerCased ∅.
Proof. intros k v H. by rewrite lookup_empty in H. Qed.

Lemma lowerCased_insert (h : Headers) k v :
  toLowerCase k = k -> lowerCased h -> lowerCased (<[k := v]> h).
Proof.
  intros Hk Hh k' v'. destruct (decide (k = k')) as [<-|Hne].
  - done.
  - rewrite lookup_insert_ne by done. apply Hh.
Qed.

Lemma lowerCased_setHeader (h : Headers) k v :
  toLowerCase k = k -> lowerCased h -> lowerCased (setHeader k v h).
Proof.
  unfold setHeader. destruct (String.eqb k _); [done|]. apply lowerCased_insert.
Qed.

Lemma ownHeaders_lowerCased P c : lowerCased (ownHeaders P c).
Proof.
  unfold ownHeaders.
  destruct (token c) as [t|], (instanceId c) as [i|];
    repeat match goal with |- context [if ?b then _ else _] => destruct b end;
    repeat (apply lowerCased_insert; [reflexivity|]); apply lowerCased_empty.
Qed.

Lemma addCallerHeaders_lowerCased entries (h : Headers) :
  lowerCased h -> lowerCased (addCallerHeaders entries h).
Proof.
  unfold addCallerHeaders. revert h.
  induction entries as [|[k [v|]] entries IH]; intros h Hh; simpl; [done| |by apply IH].
  apply IH, lowerCased_setHeader; [apply toLowerCase_idem | done].
Qed.

(** X2. Every header name of a request is in lower case, also the names
    the caller wrote with capitals and the conditional header out of the
    cache: a request never carries the same header under two
    letter-casings. *)
Theorem request_headers_lowerCased P config cache u init :
  Fetch u init ∈ events (snd (run P config cache)) ->
  lowerCased (init_headers init).
Proof.
  intros [_ ->]%run_fetch_event. unfold requestAt, withIfNoneMatch; simpl.
  assert (Hm : lowerCased (mergedHeaders P (resolve P config))).
  { unfold mergedHeaders. destruct (headers _).
    - apply addCallerHeaders_lowerCased, ownHeaders_lowerCased.
    - apply ownHeaders_lowerCased. }
  destruct (_ ≫= etag) as [e|]; [|done].
  destruct (_ && _); [|done].
  by apply lowerCased_insert.
Qed.

Lemma request_headers_lowerCased_witness :
  init_headers
    (requestAt (answering (Return notModified))
       (withHeaders [("If-None-Match", Some "mine"); ("X-Trace", Some "1")])
       seeded defaultUrl) !! "X-Trace" = None.
Proof.
  destruct (init_headers
              (requestAt (answering (Return notModified))
                 (withHeaders [("If-None-Match", Some "mine"); ("X-Trace", Some "1")])
                 seeded defaultUrl) !! "X-Trace") as [v|] eqn:Hv; [|reflexivity].
  exfalso.
  assert (Hin : Fetch defaultUrl
            (requestAt (answering (Return notModified))
               (withHeaders [("If-None-Match", Some "mine"); ("X-Trace", Some "1")])
               seeded defaultUrl)
          ∈ events (snd (run (answering (Return notModified))
                           (withHeaders [("If-None-Match", Some "mine");
                                         ("X-Trace", Some "1")]) seeded))).
  { vm_compute. apply list_elem_of_here. }
  pose proof (request_headers_lowerCased _ _ _ _ _ Hin "X-Trace" v Hv) as H.
  vm_compute in H. discriminate H.
Defined.

(** What the fold of [callerHeader] gives from an accumulator. *)
Lemma callerHeader_fold name entries acc :
  fold_left
    (fun acc kv =>
       match snd kv with
       | Some value => if String.eqb (toLowerCase (fst kv)) name then Some value else acc
       | None => acc
       end)
    entries acc
  = overriding (callerHeader name entries) acc.
Proof.
  unfold callerHeader, overriding. revert acc.
  induction entries as [|[k [v|]] entries IH]; intros acc; simpl; [done| |apply IH].
  rewrite (IH (if String.eqb (toLowerCase k) name then Some v else acc)).
  rewrite (IH (if String.eqb (toLowerCase k) name then Some v else None)).
  destruct (fold_left _ entries None); [done|].
  by destruct (String.eqb _ _).
Qed.



(** A header of the request other than the conditional one. *)
Lemma request_header P config cache u init name :
  Fetch u init ∈ events (snd (run P config cache)) ->
  name ≠ "if-none-match" ->
  name ≠ "__proto__" ->
  init_headers init !! name =
  overriding (callerHeader name (callerEntries (resolve P config)))
    (ownHeaders P (resolve P config) !! name).
Proof.
  intros [_ ->]%run_fetch_event Hne Hproto. unfold requestAt, withIfNoneMatch; simpl.
  assert (Hm : mergedHeaders P (resolve P config) !! name =
               overriding (callerHeader name (callerEntries (resolve P config)))
                 (ownHeaders P (resolve P config) !! name)).
  { unfold mergedHeaders, callerEntries.
    destruct (headers (fetchOptions (resolve P config))) as [h|]; simpl; [|done].
    rewrite (addCallerHeaders_lookup name _ _ _ Hproto eq_refl).
    apply callerHeader_fold. }
  destruct (_ ≫= etag) as [e|]; [|done].
  destruct (_ && _); [|done].
  by rewrite lookup_insert_ne.
Qed.



(** The headers of a [Headers] instance and a property named [__proto__]
    do not reach the request. *)
Example headers_instance_and_proto_are_not_sent :
  init_headers
    (requestAt (answering (Return notModified))
       (withHeadersInstance [("Authorization", "mine")]) seeded defaultUrl)
  !! "authorization" = Some defaultToken /\
  init_headers
    (requestAt (answering (Return notModified))
       (withHeaders [("__PROTO__", Some "x")]) seeded defaultUrl)
  = init_headers (requestAt (answering (Return notModified)) None seeded defaultUrl).
Proof. split; vm_compute; reflexivity. Qed.

Lemma ownHeaders_authorization P c :
  ownHeaders P c !! "authorization" =
  match token c with
  | Some t =>
      if (negb (otruthy (instanceId c))
          || negb (bool_decide (token c = Some defaultToken))) && truthy t
      then Some t else None
  | None => None
  end.
Proof.
  unfold ownHeaders.
  destruct (token c) as [t|], (instanceId c) as [i|]; simpl;
    repeat match goal with |- context [if ?b then _ else _] => destruct b end;
    by simplify_map_eq.
Qed.

Lemma ownHeaders_instanceid P c :
  ownHeaders P c !! "unleash-instanceid" =
  match instanceId c with
  | Some i => if truthy i then Some i else None
  | None => None
  end.
Proof.
  unfold ownHeaders.
  destruct (token c) as [t|], (instanceId c) as [i|]; simpl;
    repeat match goal with |- context [if ?b then _ else _] => destruct b end;
    by simplify_map_eq.
Qed.

(** X4. Unless the caller's own headers bring an [authorization] or an
    [unleash-instanceid], no request carries the fallback token together
    with an instance id: with an instance id configured, the token is sent
    only when it is not the fallback token. *)
Theorem fallback_token_not_sent_with_instance_id P config cache u init :
  Fetch u init ∈ events (snd (run P config cache)) ->
  callerHeader "authorization" (callerEntries (resolve P config)) = None ->
  callerHeader "unleash-instanceid" (callerEntries (resolve P config)) = None ->
  ~ (is_Some (init_headers init !! "unleash-instanceid") /\
     init_headers init !! "authorization" = Some defaultToken).
Proof.
  intros Hin Ha Hi.
  rewrite (request_header P config cache u init "unleash-instanceid" Hin)
    by discriminate.
  rewrite (request_header P config cache u init "authorization" Hin) by discriminate.
  rewrite Ha, Hi. simpl.
  rewrite ownHeaders_authorization, ownHeaders_instanceid.
  intros [[i Hinst] Hauth].
  destruct (instanceId (resolve P config)) as [i'|]; [|discriminate].
  simpl in Hauth. destruct (truthy i'); [|discriminate]. simpl in Hauth.
  destruct (token (resolve P config)) as [t|]; [|discriminate].
  case_bool_decide as Hd; simpl in Hauth; [discriminate|].
  destruct (truthy t); [|discriminate]. by injection Hauth as ->.
Qed.

Lemma fallback_token_not_sent_with_instance_id_witness :
  ~ (is_Some
       (init_headers
          (requestAt (answering (Return notModified)) (withInstanceId "my-instance-id")
             ∅ defaultUrl) !! "unleash-instanceid") /\
     init_headers
       (requestAt (answering (Return notModified)) (withInstanceId "my-instance-id")
          ∅ defaultUrl) !! "authorization" = Some defaultToken).
Proof.
  refine (fallback_token_not_sent_with_instance_id (answering (Return notModified))
            (withInstanceId "my-instance-id") ∅ defaultUrl _ _ eq_refl eq_refl).
  vm_compute. apply list_elem_of_here.
Defined.

(** With an instance id in the configuration and the fallback token of the
    default configuration, no [authorization] header is sent. *)
Example instance_id_suppresses_fallback_token :
  init_headers
    (requestAt (answering (Return notModified)) (withInstanceId "my-instance-id")
       ∅ defaultUrl) !! "authorization" = None /\
  init_headers
    (requestAt (answering (Return notModified)) (withInstanceId "my-instance-id")
       ∅ defaultUrl) !! "unleash-instanceid" = Some "my-instance-id".
Proof. split; vm_compute; reflexivity. Qed.

(** *** Failures before a response *)

Lemma warned_is (P : Platform) config cache :
  let evs := events (warned P config {| definitionsCache := cache; events := [] |}) in
  evs = ((if bool_decide (token (resolve P config) = Some defaultToken)
          then [ConsoleError] else [])
         ++ (if bool_decide (url (resolve P config) = defaultUrl)
             then [ConsoleWarn] else []))%list.
Proof.
  unfold warned, bind, when, emit, modify, ret; simpl.
  repeat case_bool_decide; reflexivity.
Qed.

(** X5. When the URL of the configuration is not a valid URL, the call
    throws what the [URL] constructor throws, sends no request and leaves
    the cache as it was. *)
Theorem invalid_url_throws_before_fetch P config cache e :
  URL_toString P (url (resolve P config)) = Throw e ->
  fst (run P config cache) = Throw e /\
  fetches (events (snd (run P config cache))) = 0%nat /\
  definitionsCache (snd (run P config cache)) = cache.
Proof.
  intros Hu. rewrite run_unfold. cbv zeta. rewrite Hu. simpl.
  split; [done|]. split; [|apply warned_cache].
  rewrite warned_is. by repeat case_bool_decide.
Qed.

Lemma invalid_url_throws_before_fetch_witness :
  fst (run rejectingUrls None seeded) = Throw (TypeError "Invalid URL") /\
  fetches (events (snd (run rejectingUrls None seeded))) = 0%nat /\
  definitionsCache (snd (run rejectingUrls None seeded)) = seeded.
Proof.
  exact (invalid_url_throws_before_fetch rejectingUrls None seeded
           (TypeError "Invalid URL") eq_refl).
Defined.

(** X6. When [fetch] fails, the call throws the same error, reads no body
    and leaves the cache as it was: there is no retry and no fallback to
    the cached payload. *)
Theorem transport_failure_propagates P config cache u e :
  URL_toString P (url (resolve P config)) = Return u ->
  fetch P u (requestAt P config cache u) = Throw e ->
  fst (run P config cache) = Throw e /\
  fetches (events (snd (run P config cache))) = 1%nat /\
  (ReadJson ∉ events (snd (run P config cache))) /\
  definitionsCache (snd (run P config cache)) = cache.
Proof.
  intros Hu Hf. rewrite run_unfold. cbv zeta. rewrite Hu, Hf. simpl.
  split; [done|]. rewrite warned_is.
  split; [by repeat case_bool_decide|]. split; [|done].
  repeat case_bool_decide; simpl; not_among.
Qed.

Lemma transport_failure_propagates_witness :
  fst (run (answering (Throw (Error "offline"))) None seeded) = Throw (Error "offline") /\
  fetches (events (snd (run (answering (Throw (Error "offline"))) None seeded))) = 1%nat /\
  (ReadJson ∉ events (snd (run (answering (Throw (Error "offline"))) None seeded))) /\
  definitionsCache (snd (run (answering (Throw (Error "offline"))) None seeded)) = seeded.
Proof.
  exact (transport_failure_propagates (answering (Throw (Error "offline"))) None seeded
           defaultUrl (Error "offline") eq_refl eq_refl).
Defined.

(** X7. A call never sends a second request, whatever the response, and
    a call that returns has sent exactly one. *)
Theorem one_request_at_most P config cache :
  (fetches (events (snd (run P config cache))) <= 1)%nat /\
  (forall d, fst (run P config cache) = Return d ->
     fetches (events (snd (run P config cache))) = 1%nat).
Proof.
  rewrite run_unfold. cbv zeta.
  assert (Hw : fetches (events (warned P config
                 {| definitionsCache := cache; events := [] |})) = 0%nat).
  { rewrite warned_is. by repeat case_bool_decide. }
  unfold fetches in *.
  destruct (URL_toString P _) as [u|e]; simpl.
  - destruct (fetch P u _) as [r|e]; simpl; [|rewrite Hw; split; [lia|done]].
    destruct (status r =? 304); simpl; [rewrite Hw; split; [lia|done]|].
    destruct (json r); simpl; rewrite Hw; split; try lia; done.
  - rewrite Hw. split; [lia|discriminate].
Qed.

(** X8. The console messages: a call warns exactly when the URL it works
    with is the fallback URL, and logs an error exactly when its token is
    the fallback token, whether or not the request succeeds. *)
Theorem console_messages P config cache :
  (ConsoleWarn ∈ events (snd (run P config cache)) <->
     url (resolve P config) = defaultUrl) /\
  (ConsoleError ∈ events (snd (run P config cache)) <->
     token (resolve P config) = Some defaultToken).
Proof.
  rewrite run_unfold. cbv zeta.
  pose proof (warned_is P config cache) as Hw. cbv zeta in Hw.
  set (W := events (warned P config _)) in *.
  assert (HW : forall c : Event, c ∈ W <->
            (c = ConsoleError /\ token (resolve P config) = Some defaultToken) \/
            (c = ConsoleWarn /\ url (resolve P config) = defaultUrl)).
  { intros c. rewrite Hw, elem_of_app.
    repeat case_bool_decide; rewrite ?elem_of_cons, ?elem_of_nil;
      intuition congruence. }
  assert (Hwarn : ConsoleWarn ∈ W <-> url (resolve P config) = defaultUrl).
  { rewrite HW. intuition (try discriminate; auto). }
  assert (Herr : ConsoleError ∈ W <-> token (resolve P config) = Some defaultToken).
  { rewrite HW. intuition (try discriminate; auto). }
  assert (HF : forall u i (c : Event), c = ConsoleWarn \/ c = ConsoleError ->
            (c ∈ Fetch u i :: W <-> c ∈ W) /\ (c ∈ ReadJson :: Fetch u i :: W <-> c ∈ W)).
  { intros u i c Hc. rewrite !elem_of_cons.
    split; split; auto; intros H; repeat (destruct H as [H|H]; try done);
      destruct Hc; subst; discriminate. }
  destruct (URL_toString P _) as [u|e]; simpl; [|done].
  destruct (HF u (requestAt P config cache u) ConsoleWarn (or_introl eq_refl)) as [H1 H2].
  destruct (HF u (requestAt P config cache u) ConsoleError (or_intror eq_refl)) as [H3 H4].
  destruct (fetch P u _) as [r|e]; simpl; [|by rewrite H1, H3].
  destruct (status r =? 304); simpl; [by rewrite H1, H3|].
  destruct (json r); simpl; by rewrite H2, H4.
Qed.

(** *** The cache across calls *)

(** X9. A call reads and writes the cache under its own key only: the
    entry of every other key is after the call what it was before, whatever
    the response. *)
Theorem other_keys_untouched P config cache u k :
  URL_toString P (url (resolve P config)) = Return u ->
  k ≠ cacheKeyAt P config u ->
  definitionsCache (snd (run P config cache)) !! k = cache !! k.
Proof.
  intros Hu Hk. rewrite run_unfold. cbv zeta. rewrite Hu. simpl.
  destruct (fetch P u _) as [r|e]; simpl; [|done].
  destruct (status r =? 304); simpl; [done|].
  destruct (json r) as [d|e]; simpl; [|done].
  destruct (ok r); [|done].
  destruct (otruthy (etag_header r)).
  - by rewrite lookup_insert_ne.
  - by rewrite lookup_delete_ne.
Qed.

Lemma other_keys_untouched_witness :
  definitionsCache (snd (run (answering (Return (okWithEtag 9%positive))) None twoKeys))
  !! "other" = Some (entry "etag-9" 3%positive).
Proof.
  refine (eq_trans
            (other_keys_untouched (answering (Return (okWithEtag 9%positive))) None
               twoKeys defaultUrl "other" eq_refl _) _).
  - vm_compute. discriminate.
  - vm_compute. reflexivity.
Defined.

(** X10. No entry of the cache ever lacks its etag: when every entry
    holds a non-empty etag before a call, so does every entry after it,
    whatever the response; and the empty cache is such a cache. *)
Theorem etagged_preserved P config cache :
  etagged cache ->
  etagged (definitionsCache (snd (run P config cache))) /\ etagged ∅.
Proof.
  intros Hwf. split; [|intros k entry H; by rewrite lookup_empty in H].
  rewrite run_unfold. cbv zeta.
  destruct (URL_toString P _) as [u|e]; simpl; [|by rewrite warned_cache].
  destruct (fetch P u _) as [r|e]; simpl; [|done].
  destruct (status r =? 304); simpl; [done|].
  destruct (json r) as [d|e]; simpl; [|done].
  destruct (ok r); [|done].
  destruct (otruthy (etag_header r)) eqn:He.
  - intros k entry. destruct (decide (cacheKeyAt P config u = k)) as [<-|Hne].
    + rewrite lookup_insert_eq. by intros [= <-].
    + rewrite lookup_insert_ne by done. apply Hwf.
  - intros k entry. destruct (decide (cacheKeyAt P config u = k)) as [<-|Hne].
    + by rewrite lookup_delete_eq.
    + rewrite lookup_delete_ne by done. apply Hwf.
Qed.

Lemma seeded_wellFormed : wellFormed seeded.
Proof.
  intros k entry. unfold seeded.
  destruct (decide (defaultKey = k)) as [<-|Hne].
  - rewrite lookup_insert_eq. intros [= <-]. split; [reflexivity|by eexists].
  - rewrite lookup_insert_ne by done. by rewrite lookup_empty.
Qed.

Lemma etagged_preserved_witness :
  etagged
    (definitionsCache (snd (run (answering (Return (okWithEtag 9%positive))) None seeded))).
Proof.
  refine (proj1 (etagged_preserved (answering (Return (okWithEtag 9%positive))) None
                   seeded _)).
  intros k entry H. exact (proj1 (seeded_wellFormed k entry H)).
Defined.

(** X11. On a well-formed cache a 304 is served whenever the cache holds
    an entry for the key: the stale-cache error is thrown exactly when the
    cache holds no entry for the key, and then the request carried no
    conditional header out of the cache. *)
Theorem stale_error_only_without_entry P config cache u r :
  wellFormed cache ->
  receives P config cache u r ->
  status r = 304 ->
  (fst (run P config cache) = Throw (Error staleCacheMessage) <->
     cache !! cacheKeyAt P config u = None) /\
  (cache !! cacheKeyAt P config u = None ->
     init_headers (requestAt P config cache u) = mergedHeaders P (resolve P config)).
Proof.
  intros Hwf [Hu Hf] Hs. rewrite run_unfold. cbv zeta. rewrite Hu, Hf, Hs. simpl.
  unfold requestAt; simpl.
  destruct (cache !! cacheKeyAt P config u) as [entry|] eqn:Hc; simpl.
  - destruct (Hwf _ _ Hc) as [_ [d Hd]]. rewrite Hd. split; [|done].
    split; discriminate.
  - done.
Qed.

Lemma stale_error_only_without_entry_witness :
  fst (run (answering (Return notModified)) None ∅) = Throw (Error staleCacheMessage).
Proof.
  refine (proj2 (proj1 (stale_error_only_without_entry
                   (answering (Return notModified)) None ∅ defaultUrl notModified
                   _ (conj eq_refl eq_refl) eq_refl)) eq_refl).
  intros k entry H. by rewrite lookup_empty in H.
Defined.

Lemma withFetch_key P f config u :
  cacheKeyAt (withFetch P f) config u = cacheKeyAt P config u.
Proof. reflexivity. Qed.

(** X12. The ETag is remembered from one call to the next. After a call
    that receives a 2xx response with a non-empty ETag and parses its body,
    a following call with the same configuration, whose caller gives its
    headers as a plain object or not at all and supplies no non-empty
    [if-none-match], sends [if-none-match] with that ETag; and when the
    server answers it with a 304, the call reads no body and leaves the
    cache as it is. *)
Theorem etag_round_trip P config cache u r d e f2 r2 :
  receives P config cache u r ->
  ok r = true ->
  json r = Return d ->
  etag_header r = Some e ->
  truthy e = true ->
  plainHeaders (resolve P config) ->
  otruthy (suppliedIfNoneMatch (resolve P config)) = false ->
  let cache' := definitionsCache (snd (run P config cache)) in
  let second := run (withFetch P f2) config cache' in
  f2 u (requestAt (withFetch P f2) config cache' u) = Return r2 ->
  status r2 = 304 ->
  init_headers (requestAt (withFetch P f2) config cache' u) !! "if-none-match" = Some e /\
  Fetch u (requestAt (withFetch P f2) config cache' u) ∈ events (snd second) /\
  (ReadJson ∉ events (snd second)) /\
  definitionsCache (snd second) = cache'.
Proof.
  intros Hrec Hok Hj He Ht Hplain Hsup. cbv zeta. intros Hf2 Hs2.
  destruct (ok_response_stores_or_evicts P config cache u r d Hrec Hok Hj) as [Hstore _].
  specialize (Hstore e He Ht).
  set (cache' := definitionsCache (snd (run P config cache))) in *.
  assert (Hrec2 : receives (withFetch P f2) config cache' u r2).
  { split; [exact (proj1 Hrec)|exact Hf2]. }
  pose proof (not_modified_returns_cached_or_throws _ _ _ _ _ Hrec2 Hs2) as H304.
  rewrite withFetch_key, Hstore in H304. simpl in H304. destruct H304 as [Hret Hnj].
  split; [|split; [|split; [done|]]].
  - unfold requestAt, withIfNoneMatch; simpl.
    rewrite withFetch_key, Hstore. simpl.
    change (mergedHeaders (withFetch P f2) (resolve (withFetch P f2) config))
      with (mergedHeaders P (resolve P config)).
    rewrite (mergedHeaders_if_none_match _ _ Hplain), Hsup, Ht. simpl.
    by rewrite lookup_insert_eq.
  - rewrite run_unfold. cbv zeta.
    change (URL_toString (withFetch P f2) (url (resolve (withFetch P f2) config)))
      with (URL_toString P (url (resolve P config))).
    rewrite (proj1 Hrec). simpl.
    change (fetch (withFetch P f2)) with f2. rewrite Hf2, Hs2. simpl.
    apply list_elem_of_here.
  - by apply (proj1 (cache_untouched_without_success _ _ _ _ _ Hrec2)).
Qed.

Lemma etag_round_trip_witness :
  init_headers
    (requestAt (withFetch (answering (Return (okFirst 7%positive)))
                  (fun _ _ => Return notModified)) None
       (definitionsCache (snd (run (answering (Return (okFirst 7%positive))) None ∅)))
       defaultUrl) !! "if-none-match" = Some "etag-1".
Proof.
  exact (proj1
    (etag_round_trip (answering (Return (okFirst 7%positive))) None ∅ defaultUrl
       (okFirst 7%positive) 7%positive "etag-1" (fun _ _ => Return notModified)
       notModified (conj eq_refl eq_refl) eq_refl eq_refl eq_refl eq_refl I eq_refl
       eq_refl eq_refl)).
Defined.

(** X13. A reset followed by a call: whatever the cache held, the call
    then finds no entry, so a 304 makes it throw the stale-cache error, the
    request carries no conditional header out of the cache, and the cache
    is empty afterwards. *)
Theorem reset_then_not_modified P config (s : State) u r :
  receives P config ∅ u r ->
  status r = 304 ->
  let out := (let* _ := __resetDefinitionsCache in getDefinitions P config) s in
  fst out = Throw (Error staleCacheMessage) /\
  definitionsCache (snd out) = ∅ /\
  init_headers (requestAt P config ∅ u) = mergedHeaders P (resolve P config) /\
  Fetch u (requestAt P config ∅ u) ∈ events (snd out).
Proof.
  intros [Hu Hf] Hs. cbv zeta.
  unfold bind, __resetDefinitionsCache, modify. simpl.
  rewrite getDefinitions_unfold. cbv zeta. simpl.
  rewrite Hu, Hf, Hs. simpl. rewrite lookup_empty. simpl.
  split; [done|]. split; [done|]. split; [done|].
  apply list_elem_of_here.
Qed.

Lemma reset_then_not_modified_witness :
  fst ((let* _ := __resetDefinitionsCache in
        getDefinitions (answering (Return notModified)) None)
         {| definitionsCache := seeded; events := [] |})
  = Throw (Error staleCacheMessage).
Proof.
  exact (proj1 (reset_then_not_modified (answering (Return notModified)) None
                  {| definitionsCache := seeded; events := [] |}
                  defaultUrl notModified (conj eq_refl eq_refl) eq_refl)).
Defined.

(** *** The key of a call *)

Lemma addCallerHeaders_snoc es k v (h : Headers) :
  addCallerHeaders (es ++ [(k, Some v)]) h
  = setHeader (toLowerCase k) v (addCallerHeaders es h).
Proof. unfold addCallerHeaders. by rewrite fold_left_app. Qed.

(** X23. A further header of the caller changes the cache key only when
    it is one of the three identity headers: with a header of any other
    lower-cased name added, such as [if-none-match] or a tracing header,
    the call works on the same cache entry. *)
Theorem other_caller_header_keeps_key P c es k v u :
  identityHeader (toLowerCase k) = false ->
  getCacheKey u (mergedHeaders P (withCallerHeaders c (es ++ [(k, Some v)])))
  = getCacheKey u (mergedHeaders P (withCallerHeaders c es)).
Proof.
  unfold identityHeader. intros H.
  apply orb_false_iff in H as [H H3]. apply orb_false_iff in H as [H1 H2].
  apply String.eqb_neq in H1, H2, H3.
  unfold mergedHeaders; simpl. rewrite addCallerHeaders_snoc.
  unfold setHeader. destruct (String.eqb (toLowerCase k) "__proto__"); [done|].
  unfold getCacheKey. by rewrite !lookup_insert_ne.
Qed.

Lemma other_caller_header_keeps_key_witness :
  cacheKeyAt (answering (Return notModified))
    (withHeaders ([] ++ [("If-None-Match", Some "mine")])) defaultUrl
  = defaultKey.
Proof.
  exact (other_caller_header_keeps_key (answering (Return notModified))
           (resolve (answering (Return notModified)) None) [] "If-None-Match" "mine"
           defaultUrl eq_refl).
Defined.

(** X24. An [authorization] header in the caller's plain headers object
    takes the place of the token in the cache key: two calls that differ
    only in a non-empty [Authorization] such an object holds last, under
    any letter-casing, work on different cache entries. *)
Theorem caller_authorization_separates_keys P c es k k' a a' u :
  toLowerCase k = "authorization" ->
  toLowerCase k' = "authorization" ->
  truthy a = true ->
  truthy a' = true ->
  a ≠ a' ->
  getCacheKey u (mergedHeaders P (withCallerHeaders c (es ++ [(k, Some a)])))
  ≠ getCacheKey u (mergedHeaders P (withCallerHeaders c (es ++ [(k', Some a')]))).
Proof.
  intros Hk Hk' Ha Ha' Hne Heq.
  apply CacheKeyProofs.getCacheKey_inj in Heq.
  unfold keyFields, mergedHeaders in Heq; simpl in Heq.
  rewrite !addCallerHeaders_snoc, Hk, Hk' in Heq.
  unfold setHeader in Heq. simpl in Heq.
  injection Heq as Heq _ _. rewrite !lookup_insert_eq in Heq. simpl in Heq.
  rewrite Ha, Ha' in Heq. done.
Qed.

Lemma caller_authorization_separates_keys_witness :
  cacheKeyAt (answering (Return notModified))
    (withHeaders ([] ++ [("Authorization", Some "alice")])) defaultUrl
  ≠ cacheKeyAt (answering (Return notModified))
      (withHeaders ([] ++ [("AUTHORIZATION", Some "bob")])) defaultUrl.
Proof.
  apply (caller_authorization_separates_keys (answering (Return notModified))
           (resolve (answering (Return notModified)) None) []
           "Authorization" "AUTHORIZATION" "alice" "bob" defaultUrl);
    [reflexivity | reflexivity | reflexivity | reflexivity | discriminate].
Defined.

(** An [Authorization] in a [Headers] instance does not enter the key: the
    call works on the entry of the configured token. *)
Example headers_instance_keeps_key :
  cacheKeyAt (answering (Return notModified))
    (withHeadersInstance [("Authorization", "alice")]) defaultUrl = defaultKey.
Proof. vm_compute. reflexivity. Qed.

(** *** The environment *)

(** X25. The server-side variables win over the public ones: when
    [UNLEASH_SERVER_API_URL] and [UNLEASH_APP_NAME] are set and not empty,
    the default configuration is the same whatever
    [NEXT_PUBLIC_UNLEASH_SERVER_API_URL] and [NEXT_PUBLIC_UNLEASH_APP_NAME]
    hold. *)
Theorem server_variables_win P e publicUrl publicAppName defaultAppName :
  otruthy (UNLEASH_SERVER_API_URL e) = true ->
  otruthy (UNLEASH_APP_NAME e) = true ->
  getDefaultConfig (withEnv P (withPublic e publicUrl publicAppName)) defaultAppName
  = getDefaultConfig (withEnv P (withPublic e None None)) defaultAppName.
Proof.
  intros Hu Ha. unfold getDefaultConfig, oor; simpl. by rewrite Hu, Ha.
Qed.

Lemma server_variables_win_witness :
  url (getDefaultConfig (withEnv (answering (Return notModified)) serverEnv) "nextjs")
  = "http://example.org/api/client/features" /\
  appName (getDefaultConfig (withEnv (answering (Return notModified)) serverEnv) "nextjs")
  = "server-app".
Proof.
  pose proof (server_variables_win (answering (Return notModified)) serverEnv
                (Some "http://example.com/api") (Some "public-app") "nextjs"
                eq_refl eq_refl) as H.
  change (withPublic serverEnv (Some "http://example.com/api") (Some "public-app"))
    with serverEnv in H.
  rewrite H. split; reflexivity.
Defined.

End GetDefinitionsMoreProofs.
(** * Further properties of [flag.ts] *)

Module FlagMoreProofs.

Import GetDefinitions Flag FlagSpec FlagMore CacheKeyProofs FlagProofs.

(** *** The context key *)

Lemma stringify_Obj ps :
  JSON.stringify (JSON.Obj ps) = "{" ++ members ps true ++ "}".
Proof. reflexivity. Qed.

(** X14. The context key depends on the order of the properties: two
    contexts that differ in the order of their first two properties, both
    with a value and with different names, have different keys, whatever
    the values and the rest of the context. *)
Theorem serializeContext_order_matters k1 v1 k2 v2 (rest : Context) :
  k1 ≠ k2 ->
  serializeContext ((k1, Some v1) :: (k2, Some v2) :: rest)
  ≠ serializeContext ((k2, Some v2) :: (k1, Some v1) :: rest).
Proof.
  intros Hne. unfold serializeContext. rewrite !stringify_Obj. simpl.
  rewrite !append_assoc. intros H.
  apply String.app_inj in H. by apply quote_app_inj in H as [? _].
Qed.

Lemma serializeContext_order_matters_witness :
  serializeContext [("userId", Some (JSON.Str "1")); ("sessionId", Some (JSON.Num 2))]
  ≠ serializeContext [("sessionId", Some (JSON.Num 2)); ("userId", Some (JSON.Str "1"))].
Proof.
  apply (serializeContext_order_matters "userId" (JSON.Str "1") "sessionId" (JSON.Num 2) []).
  discriminate.
Defined.

Lemma members_ofStrings l first :
  members (ofStrings l) first = rendered (definedProps l) first.
Proof.
  revert first. induction l as [|[k [v|]] l IH]; intros first; simpl.
  - reflexivity.
  - by rewrite IH.
  - apply IH.
Qed.

Lemma rendered_rest_inj (l l' : list (string * string)) :
  rendered l false ++ "}" = rendered l' false ++ "}" -> l = l'.
Proof.
  revert l'. induction l as [|[k v] l IH]; intros [|[k' v'] l'] H.
  - reflexivity.
  - discriminate H.
  - discriminate H.
  - cbn [rendered] in H. rewrite !append_assoc in H.
    apply String.app_inj in H.
    apply quote_app_inj in H as [-> H]. apply String.app_inj in H.
    apply quote_app_inj in H as [-> H]. by rewrite (IH l' H).
Qed.

Lemma rendered_inj (l l' : list (string * string)) :
  rendered l true ++ "}" = rendered l' true ++ "}" -> l = l'.
Proof.
  destruct l as [|[k v] l], l' as [|[k' v'] l']; intros H.
  - reflexivity.
  - discriminate H.
  - discriminate H.
  - cbn [rendered] in H. rewrite !append_assoc in H.
    apply String.app_inj in H.
    apply quote_app_inj in H as [-> H]. apply String.app_inj in H.
    apply quote_app_inj in H as [-> H]. by rewrite (rendered_rest_inj l l' H).
Qed.

(** X15. For contexts whose properties are strings, the context key
    tells the contexts apart exactly: two such contexts have the same key
    when, and only when, they have the same properties with the same
    values in the same order, properties that are [undefined] not
    counting. So a stored toggle list is never reused for a context of
    other values. *)
Theorem serializeContext_strings_eq_iff (l l' : list (string * option string)) :
  serializeContext (ofStrings l) = serializeContext (ofStrings l')
  <-> definedProps l = definedProps l'.
Proof.
  unfold serializeContext. rewrite !stringify_Obj, !members_ofStrings. split.
  - intros H. apply String.app_inj in H. by apply rendered_inj.
  - by intros ->.
Qed.

Example undefined_property_does_not_count :
  serializeContext (ofStrings [("userId", Some "7"); ("sessionId", None)])
  = serializeContext (ofStrings [("userId", Some "7")]).
Proof. vm_compute. reflexivity. Qed.

(** *** What a call touches *)

(** X16. A call writes to the evaluation cache it works on and to no
    other: every other evaluation cache is after the call what it was
    before, on every path. In particular a call with an evaluation cache of
    its own leaves the module's default evaluation cache alone. *)
Theorem other_evaluation_caches_untouched I n ctx o w h :
  h ≠ evaluationHandle o ->
  evaluationCaches (snd (flag I n ctx o w)) !! h = evaluationCaches w !! h.
Proof.
  intros Hh. rewrite flag_unfold. cbv zeta.
  destruct (fst (fetched I o _)) as [d|e]; [|done].
  destruct (reusable _ _ _); [done|].
  destruct (evaluateFlags I d _) as [ts|e]; simpl; [|done].
  by rewrite lookup_insert_ne.
Qed.

Lemma other_evaluation_caches_untouched_witness :
  evaluationCaches
    (snd (flag (mockImports (Some "etag-1") 5%positive) "feature-a" (user "123")
            taggedOptions afterFirstCall)) !! 0%nat
  = evaluationCaches afterFirstCall !! 0%nat.
Proof.
  apply (other_evaluation_caches_untouched (mockImports (Some "etag-1") 5%positive)
           "feature-a" (user "123") taggedOptions afterFirstCall 0%nat).
  discriminate.
Defined.

Example own_caches_leave_defaults_alone :
  evaluationCaches
    (snd (flag (mockImports (Some "etag-1") 5%positive) "feature-a" (user "123")
            taggedOptions afterFirstCall)) !! 0%nat
  = evaluationCaches afterFirstCall !! 0%nat.
Proof. vm_compute. reflexivity. Qed.

(** X17. In one call the definitions fetch is called once, before
    anything else, and the evaluator and the toggle facade at most once
    each; a call in which the facade is not called resolves with a result
    that carries an error. *)
Theorem flag_calls_each_import_once I n ctx o dcs ecs :
  let cs := calls (snd (flag I n ctx o (start dcs ecs))) in
  fetchCalls cs = 1%nat /\
  last cs = Some (CallGetDefinitionsCached (definitionsOptions o)) /\
  (evaluations cs <= 1)%nat /\
  (facadeCalls cs <= 1)%nat /\
  (facadeCalls cs = 1%nat \/ exists e, error_of (fst (flag I n ctx o (start dcs ecs))) = Some e).
Proof.
  cbv zeta. rewrite flag_unfold.
  unfold start; cbn [definitionsCaches evaluationCaches calls]; cbv zeta.
  destruct (fst (fetched I o dcs)) as [d|e]; simpl.
  - destruct (reusable _ _ _); simpl.
    + repeat split; auto.
    + destruct (evaluateFlags I d _) as [ts|e]; simpl.
      * repeat split; auto.
      * repeat split; auto. right. by exists e.
  - repeat split; auto. right. by exists e.
Qed.

(** *** Calls in a row *)

(** X18. After a call that missed the cache and evaluated, a second call
    with the same context and options, whose fetch leaves the definitions
    cache as the first left it, reuses the stored toggles exactly when the
    definitions cache carries a non-empty etag or definitions. With a
    definitions cache that carries neither, every call evaluates again:
    the evaluation cache then holds the fetched definitions, which are
    never those of the definitions cache. *)
Theorem second_call_reuses_iff_cached I n ctx o dcs ecs d dc ts I2 n2 d2 :
  fetched I o dcs = (Return d, dc) ->
  ~ reusePermitted (ecs !!! evaluationHandle o) dc (contextKeyOf ctx) ->
  evaluateFlags I d (default [] ctx) = Return ts ->
  let w1 := snd (flag I n ctx o (start dcs ecs)) in
  fetched I2 o (definitionsCaches w1) = (Return d2, dc) ->
  let second := flag I2 n2 ctx o (start (definitionsCaches w1) (evaluationCaches w1)) in
  (~ evaluatorInvoked (calls (snd second))
   <-> nonEmpty (GetDefinitions.etag dc) \/ is_Some (GetDefinitions.definitions dc)) /\
  (~ evaluatorInvoked (calls (snd second)) ->
   fst second = Return (caught (answer I2 n2 ts))).
Proof.
  intros Hf Hmiss Hev. cbv zeta.
  assert (Hw1 : snd (flag I n ctx o (start dcs ecs)) =
    {| definitionsCaches := <[definitionsHandle o := dc]> dcs;
       evaluationCaches :=
         <[evaluationHandle o :=
             {| EvaluationCache.etag := GetDefinitions.etag dc;
                EvaluationCache.definitions :=
                  Some (nullish (GetDefinitions.definitions dc) d);
                EvaluationCache.contextKey := Some (contextKeyOf ctx);
                EvaluationCache.toggles := Some ts |}]> ecs;
       calls := [CallFlagsClient ts; CallEvaluateFlags d (default [] ctx);
                 CallGetDefinitionsCached (definitionsOptions o)] |}).
  { rewrite flag_unfold.
    unfold start; cbn [definitionsCaches evaluationCaches calls]; cbv zeta.
    rewrite Hf. simpl.
    destruct (reusable _ dc _) eqn:Hr; [by apply reusable_permitted in Hr|].
    by rewrite Hev. }
  rewrite Hw1. cbn [definitionsCaches evaluationCaches]. intros Hf2.
  set (ec1 := {| EvaluationCache.etag := GetDefinitions.etag dc;
                 EvaluationCache.definitions := _;
                 EvaluationCache.contextKey := _;
                 EvaluationCache.toggles := Some ts |}).
  assert (Hre : reusable ec1 dc (contextKeyOf ctx) = true
                <-> nonEmpty (GetDefinitions.etag dc)
                    \/ is_Some (GetDefinitions.definitions dc)).
  { unfold reusable, ec1, strict_eq.
    cbn [EvaluationCache.toggles EvaluationCache.contextKey EvaluationCache.etag
         EvaluationCache.definitions].
    rewrite <- otruthy_nonEmpty.
    destruct (otruthy (GetDefinitions.etag dc));
      destruct (GetDefinitions.definitions dc) as [d0|];
      cbn [andb nullish]; repeat case_bool_decide; cbn [andb];
      try congruence.
    - split; auto.
    - split; auto.
    - split; [|done]. intros _. right. by eexists.
    - split; [discriminate|]. intros [?|[? ?]]; discriminate. }
  rewrite flag_unfold.
  unfold start; cbn [definitionsCaches evaluationCaches calls]; cbv zeta.
  rewrite Hf2. simpl. rewrite lookup_total_insert_eq. fold ec1.
  rewrite <- Hre.
  destruct (reusable ec1 dc (contextKeyOf ctx)).
  - simpl. split; [|done]. split; [done|]. intros _ (d' & c' & H).
    repeat (apply elem_of_cons in H as [H|H]; [discriminate H|]).
    by apply elem_of_nil in H.
  - assert (Hyes : forall cs, evaluatorInvoked
              (cs ++ [CallEvaluateFlags d2 (default [] ctx);
                      CallGetDefinitionsCached (definitionsOptions o)])).
    { intros cs. exists d2, (default [] ctx). apply elem_of_app. right.
      apply list_elem_of_here. }
    destruct (evaluateFlags I2 d2 _) as [ts2|e]; simpl.
    + split; [split; [|discriminate]|]; intros H; destruct H;
        apply (Hyes [CallFlagsClient ts2]).
    + split; [split; [|discriminate]|]; intros H; destruct H; apply (Hyes []).
Qed.

Lemma second_call_reuses_iff_cached_witness :
  ~ evaluatorInvoked
      (calls (snd (flag (mockImports (Some "etag-1") 5%positive) "feature-a"
                     (user "123") None
                     (start (definitionsCaches afterFirstCall)
                        (evaluationCaches afterFirstCall))))).
Proof.
  refine (proj2 (proj1
    (second_call_reuses_iff_cached (mockImports (Some "etag-1") 5%positive)
       "feature-a" (user "123") None ∅ ∅ 5%positive
       {| GetDefinitions.etag := Some "etag-1";
          GetDefinitions.definitions := Some 5%positive |}
       [featureA] (mockImports (Some "etag-1") 5%positive) "feature-a" 5%positive
       eq_refl _ eq_refl eq_refl)) _).
  - intros H%reusable_permitted. vm_compute in H. discriminate H.
  - right. by eexists.
Defined.

(** With a fetch that stores nothing, the second identical call evaluates
    again. *)
Example uncached_source_never_reuses :
  evaluations
    (calls (twoCalls (uncachedImports 5%positive) (uncachedImports 5%positive)
              (user "123") (user "123"))) = 2%nat.
Proof. vm_compute. reflexivity. Qed.

(** *** Failures *)

(** X19. When the definitions fetch throws, the call resolves with the
    failure result of that error, calls neither the evaluator nor the
    toggle facade, and writes no evaluation cache: the toggles stored for
    the next call stay. *)
Theorem fetch_failure_keeps_evaluation_cache I n ctx o dcs ecs e :
  fst (fetched I o dcs) = Throw e ->
  let out := flag I n ctx o (start dcs ecs) in
  fst out = Return {| enabled := false; variant := []; error := Some e |} /\
  calls (snd out) = [CallGetDefinitionsCached (definitionsOptions o)] /\
  evaluationCaches (snd out) = ecs.
Proof.
  intros Hf. cbv zeta. rewrite flag_unfold.
  unfold start; cbn [definitionsCaches evaluationCaches calls]; cbv zeta.
  by rewrite Hf.
Qed.

Lemma fetch_failure_keeps_evaluation_cache_witness :
  evaluationCaches
    (snd (flag offline "feature-a" (user "123") None
            (start (definitionsCaches afterFirstCall) (evaluationCaches afterFirstCall))))
  = evaluationCaches afterFirstCall.
Proof.
  exact (proj2 (proj2
    (fetch_failure_keeps_evaluation_cache offline "feature-a" (user "123") None
       (definitionsCaches afterFirstCall) (evaluationCaches afterFirstCall)
       (Error "fetch failed") eq_refl))).
Defined.

(** X20. The evaluation cache is written before the toggle facade is
    built: when a call misses the cache, the evaluator returns and the
    facade then throws, the call resolves with the failure result, and the
    evaluation cache nevertheless holds the new toggle list, context key,
    definitions and etag. *)
Theorem facade_failure_after_write I n ctx o dcs ecs d ts e :
  fst (fetched I o dcs) = Return d ->
  let dc := snd (fetched I o dcs) in
  ~ reusePermitted (ecs !!! evaluationHandle o) dc (contextKeyOf ctx) ->
  evaluateFlags I d (default [] ctx) = Return ts ->
  answer I n ts = Throw e ->
  let out := flag I n ctx o (start dcs ecs) in
  fst out = Return {| enabled := false; variant := []; error := Some e |} /\
  evaluationCaches (snd out) !!! evaluationHandle o =
  {| EvaluationCache.etag := GetDefinitions.etag dc;
     EvaluationCache.definitions := Some (nullish (GetDefinitions.definitions dc) d);
     EvaluationCache.contextKey := Some (contextKeyOf ctx);
     EvaluationCache.toggles := Some ts |}.
Proof.
  intros Hf. cbv zeta. intros Hmiss Hev Ha. rewrite flag_unfold.
  unfold start; cbn [definitionsCaches evaluationCaches calls]; cbv zeta.
  rewrite Hf. simpl.
  destruct (reusable _ _ _) eqn:Hr; [by apply reusable_permitted in Hr|].
  rewrite Hev, Ha. simpl. split; [done|]. by rewrite lookup_total_insert_eq.
Qed.

Lemma facade_failure_after_write_witness :
  EvaluationCache.toggles
    (evaluationCaches
       (snd (flag brokenFacade "feature-a" (user "123") None (start ∅ ∅))) !!! 0%nat)
  = Some [featureA].
Proof.
  refine (f_equal EvaluationCache.toggles
    (proj2 (facade_failure_after_write brokenFacade "feature-a" (user "123") None ∅ ∅
              5%positive [featureA] (TypeError "toggles is not iterable")
              eq_refl _ eq_refl eq_refl))).
  intros H%reusable_permitted. vm_compute in H. discriminate H.
Defined.

(** *** The first call and the options *)

(** X21. An evaluation cache that was just created, empty, never permits
    reuse: the first call on it calls the evaluator whenever the fetch
    returns, whatever etag and definitions the definitions cache holds and
    whatever the context. *)
Theorem fresh_cache_always_evaluates I n ctx o dcs ecs d :
  fst (fetched I o dcs) = Return d ->
  ecs !!! evaluationHandle o = createEvaluationCache None ->
  evaluatorInvoked (calls (snd (flag I n ctx o (start dcs ecs)))).
Proof.
  intros Hf Hec. rewrite flag_unfold.
  unfold start; cbn [definitionsCaches evaluationCaches calls]; cbv zeta.
  rewrite Hf, Hec. simpl.
  exists d, (default [] ctx).
  destruct (evaluateFlags I d _); simpl.
  - apply list_elem_of_further, list_elem_of_here.
  - apply list_elem_of_here.
Qed.

Lemma fresh_cache_always_evaluates_witness :
  evaluatorInvoked
    (calls (snd (flag (mockImports None 5%positive) "feature-a" None None (start ∅ ∅)))).
Proof.
  exact (fresh_cache_always_evaluates (mockImports None 5%positive) "feature-a"
           None None ∅ ∅ 5%positive eq_refl eq_refl).
Defined.

(** X22. The [next] the fetch is called with. It is the default
    [{ revalidate: 15 }] exactly when the caller gives no [fetchOptions] or
    [fetchOptions] without a [next] property; a [next] property of the
    caller is passed on as it is, be it [undefined] or an object without
    [revalidate], and the default does not apply to it. The [revalidate]
    read from the caller's [next] at line 43 thus never changes what is
    passed. *)
Theorem fetch_is_called_with I n ctx o dcs ecs :
  exists opts given,
    last (calls (snd (flag I n ctx o (start dcs ecs))))
    = Some (CallGetDefinitionsCached opts) /\
    p_fetchOptions (config opts) = Some given /\
    headers given = ((o ≫= fetchOptions) ≫= headers) /\
    next given =
    match o ≫= fetchOptions with
    | Some provided =>
        match next provided with
        | Absent => Defined {| revalidate := Some (Seconds 15); tags := None |}
        | Undefined => Undefined
        | Defined own => Defined own
        end
    | None => Defined {| revalidate := Some (Seconds 15); tags := None |}
    end.
Proof.
  exists (definitionsOptions o), (mergedFetchOptionsOf o). split.
  - rewrite flag_unfold.
    unfold start; cbn [definitionsCaches evaluationCaches calls]; cbv zeta.
    destruct (fst (fetched I o dcs)) as [d|e]; simpl; [|done].
    destruct (reusable _ _ _); simpl; [done|].
    by destruct (evaluateFlags I d _).
  - split; [reflexivity|]. split; [reflexivity|].
    destruct o as [[ec c [[hs [| |nx]]|] r]|]; reflexivity.
Qed.

(** A [next] of the caller without [revalidate], and one that is
    [undefined], are passed on as they are. *)
Example caller_next_without_revalidate :
  last (calls (snd (flag (mockImports None 5%positive) "feature-a" None taggedOptions
                      (start ∅ ∅))))
  = Some (CallGetDefinitionsCached
            {| config :=
                 with_fetchOptions noConfig
                   {| headers := None;
                      next := Defined {| revalidate := None; tags := Some ["flags"] |} |};
               d_cache := 1%nat |}) /\
  last (calls (snd (flag (mockImports None 5%positive) "feature-a" None undefinedNext
                      (start ∅ ∅))))
  = Some (CallGetDefinitionsCached
            {| config := with_fetchOptions noConfig {| headers := None; next := Undefined |};
               d_cache := 0%nat |}).
Proof. split; vm_compute; reflexivity. Qed.

End FlagMoreProofs.
